(** * analyze_corpus.py: the per-document analysis pipeline

    A shallow embedding of [ProjectGutenbergText] (src/analyze_corpus.py)
    and the properties of its methods.

    Conventions.
    - A Python [str] is a sequence of Unicode code points: [list N].
    - Python integers are [Z] where the code does arithmetic on indexes
      ([find] returns [-1]), [nat] where it only counts.
    - Python floats that are quotients of counts are exact rationals [Q]:
      the binary rounding of a quotient is not modelled, and [round]
      leaves open which way an exact tie goes.
    - NLTK, VADER, scikit-learn and numpy are not part of the repository:
      their entry points are parameters, each with the exception it may
      raise. *)

From Stdlib Require Import String Ascii List Bool Arith NArith ZArith QArith.
From Stdlib Require Import Qabs Lia Permutation Sorted.
Import ListNotations.
Close Scope Q_scope.
Close Scope Z_scope.
Close Scope N_scope.

Set Implicit Arguments.

(** ** Python strings *)

Module PyStr.

Definition char := N.
Definition str := list char.

(** An ASCII literal of the source as a [str]. *)
Definition lit (s : string) : str := map N_of_ascii (list_ascii_of_string s).

Definition nl : char := 10%N.
Definition bom : char := 65279%N.  (* U+FEFF *)
Definition lbracket : char := 91%N.  (* '[' *)

Definition char_eqb : char -> char -> bool := N.eqb.

Definition str_eq_dec : forall a b : str, {a = b} + {a <> b} :=
  list_eq_dec N.eq_dec.

Definition str_eqb (a b : str) : bool :=
  if str_eq_dec a b then true else false.

(** [str.isspace] on one character and the [\s] class of [re] on [str]
    patterns: the code points CPython's [Py_UNICODE_ISSPACE] accepts. *)
Definition isspace (c : char) : bool :=
  ((9 <=? c) && (c <=? 13) || (28 <=? c) && (c <=? 32)
   || (c =? 133) || (c =? 160) || (c =? 5760)
   || (8192 <=? c) && (c <=? 8202)
   || (c =? 8232) || (c =? 8233) || (c =? 8239) || (c =? 8287)
   || (c =? 12288))%N.

(** [s.lstrip(chars)], with the character set as a predicate. *)
Fixpoint lstrip_by (p : char -> bool) (s : str) : str :=
  match s with
  | [] => []
  | c :: s' => if p c then lstrip_by p s' else s
  end.

Definition rstrip_by (p : char -> bool) (s : str) : str :=
  rev (lstrip_by p (rev s)).

(** [s.strip()] *)
Definition strip (s : str) : str := rstrip_by isspace (lstrip_by isspace s).

(** [s.startswith(p)] *)
Fixpoint startswith (p s : str) : bool :=
  match p, s with
  | [], _ => true
  | _ :: _, [] => false
  | a :: p', b :: s' => char_eqb a b && startswith p' s'
  end.

(** The scan of [s.find(sub, start)]: [s] is the text from index [i] on. *)
Fixpoint find_at (sub s : str) (i : Z) : Z :=
  if startswith sub s then i
  else match s with
       | [] => (-1)%Z
       | _ :: s' => find_at sub s' (i + 1)%Z
       end.

(** [len(l)] *)
Definition len (A : Type) (l : list A) : Z := Z.of_nat (List.length l).

(** How a slice bound or a start index is clipped to [0 .. len]. *)
Definition clip (n i : Z) : Z :=
  if (i <? 0)%Z then Z.max 0 (n + i) else Z.min i n.

(** [s.find(sub, start)]: the lowest index at or after [start] where [sub]
    occurs, [-1] when there is none. *)
Definition find_from (s sub : str) (start : Z) : Z :=
  if (len s <? start)%Z then (-1)%Z
  else let a := clip (len s) start in
       find_at sub (skipn (Z.to_nat a) s) a.

(** [s.find(sub)] *)
Definition find (s sub : str) : Z := find_from s sub 0.

(** [s[a:b]] *)
Definition slice (s : str) (a b : Z) : str :=
  let a' := clip (len s) a in
  let b' := clip (len s) b in
  firstn (Z.to_nat (b' - a')) (skipn (Z.to_nat a') s).

(** [s[a:]] *)
Definition slice_from (A : Type) (l : list A) (a : Z) : list A :=
  skipn (Z.to_nat (clip (len l) a)) l.

End PyStr.

Import PyStr.

(** ** Body extraction: [ProjectGutenbergText._extract_body] *)

Definition start_marker : str := lit "*** START OF THE PROJECT GUTENBERG EBOOK".
Definition end_marker : str := lit "*** END OF THE PROJECT GUTENBERG EBOOK".

Definition _extract_body (raw_content : str) : str :=
  let start_idx := find raw_content start_marker in
  let end_idx := find raw_content end_marker in
  if negb (start_idx =? -1)%Z && negb (end_idx =? -1)%Z then
    let start_idx := (find_from raw_content [nl] start_idx + 1)%Z in
    let body := strip (slice raw_content start_idx end_idx) in
    let body := lstrip_by (char_eqb bom) body in
    body
  else [].

(** ** Header fields: [ProjectGutenbergText._extract_metadata]

    The four patterns are matched by [re.search] with no flags: [.] is any
    character but a line feed, [\s] is [isspace], and [$] holds at the end
    of the text or just before a line feed that ends the text.  A matcher
    below takes the text from the position tried on and returns group 1. *)

(** [re.search]: the leftmost position where the pattern matches. *)
Fixpoint re_search (m : str -> option str) (s : str) : option str :=
  match m s with
  | Some g => Some g
  | None => match s with
            | [] => None
            | _ :: s' => re_search m s'
            end
  end.

(** A literal at the start of the text; what follows it. *)
Fixpoint after_literal (p s : str) : option str :=
  match p, s with
  | [], _ => Some s
  | _ :: _, [] => None
  | a :: p', b :: s' => if char_eqb a b then after_literal p' s' else None
  end.

(** Greedy [\s*] followed by [k]: the longest run of spaces first, then
    shorter ones while [k] fails. *)
Fixpoint ws_star (k : str -> option str) (s : str) : option str :=
  match s with
  | c :: s' =>
      if isspace c then
        match ws_star k s' with
        | Some g => Some g
        | None => k s
        end
      else k s
  | [] => k []
  end.

(** [(.+)] at the end of a pattern: the rest of the line, one character at
    least. *)
Fixpoint rest_of_line (s : str) : str :=
  match s with
  | [] => []
  | c :: s' => if char_eqb c nl then [] else c :: rest_of_line s'
  end.

Definition dot_plus (s : str) : option str :=
  match rest_of_line s with
  | [] => None
  | g => Some g
  end.

(** [$] with no [re.MULTILINE] *)
Definition at_dollar (s : str) : bool :=
  match s with
  | [] => true
  | [c] => char_eqb c nl
  | _ => false
  end.

(** [(?:\[|$)] *)
Definition bracket_or_dollar (s : str) : bool :=
  match s with
  | c :: _ => char_eqb c lbracket || at_dollar s
  | [] => true
  end.

(** [(.+?)(?:\[|$)]: the shortest run of one character or more, none of
    them a line feed, after which the text goes on with a bracket or ends. *)
Fixpoint dot_plus_lazy (s : str) : option str :=
  match s with
  | [] => None
  | c :: s' =>
      if char_eqb c nl then None
      else if bracket_or_dollar s' then Some [c]
      else option_map (cons c) (dot_plus_lazy s')
  end.

(** [label\s*(.+)] *)
Definition match_field (label : str) (s : str) : option str :=
  match after_literal label s with
  | Some s' => ws_star dot_plus s'
  | None => None
  end.

(** [Release date:\s*(.+?)(?:\[|$)] *)
Definition match_release_date (s : str) : option str :=
  match after_literal (lit "Release date:") s with
  | Some s' => ws_star dot_plus_lazy s'
  | None => None
  end.

Record Metadata := {
  md_pg_id : str;
  md_title : option str;
  md_author : option str;
  md_release_date : option str;
  md_language : option str
}.

Definition _extract_metadata (pg_id raw_content : str) : Metadata :=
  {| md_pg_id := pg_id;
     md_title :=
       option_map strip (re_search (match_field (lit "Title:")) raw_content);
     md_author :=
       option_map strip (re_search (match_field (lit "Author:")) raw_content);
     md_release_date :=
       option_map strip (re_search match_release_date raw_content);
     md_language :=
       option_map strip
         (re_search (match_field (lit "Language:")) raw_content) |}.

(** ** Exceptions and effects

    A method either returns or raises. What it prints and the calls it
    makes into scikit-learn are recorded, in their order, in a trace that
    an exception does not erase. *)

Inductive exn := Exception (msg : str).

Inductive result (A : Type) :=
| Ok (a : A)
| Raise (e : exn).
Arguments Ok {A} a.
Arguments Raise {A} e.

Definition rbind {A B} (r : result A) (k : A -> result B) : result B :=
  match r with
  | Ok a => k a
  | Raise e => Raise e
  end.

Declare Scope py_scope.
Delimit Scope py_scope with py.
Notation "x <- r ;; k" := (rbind r (fun x => k))
  (at level 61, r at next level, right associativity) : py_scope.

(** A comprehension whose element expression may raise: the first
    exception ends it. *)
Fixpoint mapM {A B} (f : A -> result B) (l : list A) : result (list B) :=
  match l with
  | [] => Ok []
  | a :: l' =>
      match f a with
      | Ok b => match mapM f l' with
                | Ok bs => Ok (b :: bs)
                | Raise e => Raise e
                end
      | Raise e => Raise e
      end
  end.

(** [a / b] on integers: true division, [ZeroDivisionError] on [b = 0]. *)
Definition truediv (a b : nat) : result Q :=
  match b with
  | O => Raise (Exception (lit "division by zero"))
  | S _ => Ok (Z.of_nat a # Pos.of_nat b)%Q
  end.

(** [l[i]] with a non-negative index, [IndexError] out of range. *)
Definition index {A} (l : list A) (i : nat) : result A :=
  match nth_error l i with
  | Some a => Ok a
  | None => Raise (Exception (lit "index out of range"))
  end.

(** Rounding to the nearest integer; [up] decides a tie. *)
Definition round_nearest (up : bool) (q : Q) : Z :=
  let n := Qnum q in
  let d := Zpos (Qden q) in
  let f := (n / d)%Z in
  match (2 * (n mod d) ?= d)%Z with
  | Lt => f
  | Gt => (f + 1)%Z
  | Eq => if up then (f + 1)%Z else f
  end.

Inductive event :=
| Printed (line : str)
| CallFitTransform (sentences : list str)
| CallLdaFit (n_components : Z).

Definition M (A : Type) : Type := (list event * result A)%type.

Definition ret {A} (a : A) : M A := ([], Ok a).

Definition bind {A B} (m : M A) (k : A -> M B) : M B :=
  match m with
  | (t, Ok a) => let (t', r) := k a in (t ++ t', r)
  | (t, Raise e) => (t, Raise e)
  end.

Definition lift {A} (r : result A) : M A := ([], r).

Definition emit (e : event) : M unit := ([e], Ok tt).

(** [try: m except Exception as e: h e] *)
Definition try_except {A} (m : M A) (h : exn -> M A) : M A :=
  match m with
  | (t, Ok a) => (t, Ok a)
  | (t, Raise e) => let (t', r) := h e in (t ++ t', r)
  end.

Notation "x <~ m ;; k" := (bind m (fun x => k))
  (at level 61, m at next level, right associativity) : py_scope.
Notation "m ;;; k" := (bind m (fun _ => k))
  (at level 61, right associativity) : py_scope.

(** ** The libraries the class calls into *)

(** What [SentimentIntensityAnalyzer.polarity_scores] returns. *)
Record scores := {
  sc_compound : Q;
  sc_pos : Q;
  sc_neg : Q;
  sc_neu : Q
}.

(** A fitted [CountVectorizer]: its vocabulary in column order
    ([get_feature_names_out]) and the document-term matrix, a row per
    sentence. *)
Record vectorized := {
  feature_names : list str;
  doc_term_matrix : list (list nat)
}.

Record externals := {
  (** [str.lower] and, per character, what [str.isalpha] tests *)
  lower : str -> str;
  isalpha_char : char -> bool;
  (** [round] works on the binary float nearest to the scaled value: where
      the exact value lies half-way between two integers, the float decides
      the direction, which the model leaves open *)
  round_tie_up : Q -> bool;
  (** nltk *)
  word_tokenize : str -> result (list str);
  sent_tokenize : str -> result (list str);
  stop_words : list str;
  lemmatize : str -> result str;
  (** vaderSentiment *)
  polarity_scores : str -> result scores;
  (** numpy *)
  np_mean : list Q -> Q;
  np_std : list Q -> Q;
  np_min : list Q -> Q;
  np_max : list Q -> Q;
  argsort : list Q -> list nat;
  (** sklearn: [CountVectorizer(max_features=1000, stop_words='english',
      min_df=2).fit_transform] and [LatentDirichletAllocation(n_components,
      random_state=42, max_iter=20).fit(...).components_] *)
  fit_transform : list str -> result vectorized;
  lda_components : Z -> vectorized -> result (list (list Q))
}.

(** ** The analyses *)

(** [round(x, ndigits)] *)
Definition round (E : externals) (x : Q) (ndigits : nat) : Q :=
  let p := Pos.pow 10 (Pos.of_nat ndigits) in
  let scaled :=
    match ndigits with
    | O => x
    | S _ => (x * inject_Z (Zpos p))%Q
    end in
  let z := round_nearest (round_tie_up E scaled) scaled in
  match ndigits with
  | O => inject_Z z
  | S _ => (z # p)%Q
  end.

(** The three classifications, under their names in the source. *)
Module Sentiment.
Inductive class := positive | negative | neutral.
End Sentiment.

Definition sentiment_class := Sentiment.class.

Record word_entry := {
  word : str;
  count : nat;
  frequency : Q
}.

Record sentence_sentiments := {
  ss_mean : Q;
  ss_std : Q;
  ss_min : Q;
  ss_max : Q
}.

Record sentiment := {
  s_compound : Q;
  s_positive : Q;
  s_negative : Q;
  s_neutral : Q;
  s_classification : sentiment_class;
  s_sentence_sentiments : sentence_sentiments
}.

Record style_metrics := {
  type_token_ratio : Q;
  unique_words : nat;
  total_words : nat;
  unique_words_all : nat;
  total_words_all : nat;
  avg_word_length : Q;
  avg_sentence_length : Q;
  total_sentences : nat;
  vocabulary_richness : Q
}.

Record topic_info := {
  topic_id : Z;
  words : list str;
  weight : Q
}.

Record analysis := {
  a_id : str;
  a_metadata : Metadata;
  a_top_words : list word_entry;
  a_word_frequencies : list (str * nat);
  a_sentiment : sentiment;
  a_style_metrics : style_metrics;
  a_topics : list topic_info
}.

(** *** [collections.Counter]

    A [Counter] is a [dict]: keys in the order of their first insertion. *)

Definition counter := list (str * nat).

(** [c[w] = c.get(w, 0) + 1] *)
Fixpoint counter_incr (w : str) (c : counter) : counter :=
  match c with
  | [] => [(w, 1)]
  | (k, n) :: c' =>
      if str_eq_dec k w then (k, S n) :: c' else (k, n) :: counter_incr w c'
  end.

(** [Counter(tokens)] *)
Definition Counter (tokens : list str) : counter :=
  fold_left (fun c w => counter_incr w c) tokens [].

(** [c.keys()] and [sum(c.values())] *)
Definition keys (c : counter) : list str := map fst c.
Definition total (c : counter) : nat := list_sum (map snd c).

(** [c[k]] for a key, [None] for a missing one *)
Fixpoint lookup (k : str) (c : counter) : option nat :=
  match c with
  | [] => None
  | (k', n) :: c' => if str_eq_dec k' k then Some n else lookup k c'
  end.

(** [sorted(items, key=itemgetter(1), reverse=True)]: a stable sort, an
    item goes before the ones of the same count that came after it. *)
Fixpoint insert_desc (x : str * nat) (l : counter) : counter :=
  match l with
  | [] => [x]
  | y :: l' => if snd y <=? snd x then x :: l else y :: insert_desc x l'
  end.

Fixpoint sorted_desc (c : counter) : counter :=
  match c with
  | [] => []
  | x :: c' => insert_desc x (sorted_desc c')
  end.

(** [c.most_common(n)], which is [heapq.nlargest(n, c.items(),
    key=itemgetter(1))], the first [n] items of the stable descending
    sort. *)
Definition most_common (n : nat) (c : counter) : counter :=
  firstn n (sorted_desc c).

(** [ProjectGutenbergText._classify_sentiment] *)
Definition _classify_sentiment (compound_score : Q) : sentiment_class :=
  if Qle_bool (5 # 100)%Q compound_score then Sentiment.positive
  else if Qle_bool compound_score (- (5 # 100))%Q then Sentiment.negative
  else Sentiment.neutral.

(** [a / b if b > 0 else 0] *)
Definition ratio_or_zero (a b : nat) : result Q :=
  if 0 <? b then truediv a b else Ok 0%Q.

(** [ProjectGutenbergText.build_bag_of_words] *)
Definition build_bag_of_words (tokens : list str)
  : result (list word_entry * counter) :=
  let word_counts := Counter tokens in
  let total_words := List.length tokens in
  (bag_of_words <-
     mapM (fun wc : str * nat =>
             let (w, c) := wc in
             f <- ratio_or_zero c total_words ;;
             Ok {| word := w; count := c; frequency := f |})
          (most_common 50 word_counts) ;;
   let word_frequencies := word_counts in
   Ok (bag_of_words, word_frequencies))%py.

(** The instance: what [__init__] stores, the analyzers apart. *)
Record ProjectGutenbergText := {
  pg_id : str;
  raw_content : str;
  metadata : Metadata;
  body_text : str
}.

(** [ProjectGutenbergText.__init__], from the stem of the file's name and
    the text read from the file. *)
Definition __init__ (stem content : str) : ProjectGutenbergText :=
  {| pg_id := stem;
     raw_content := content;
     metadata := _extract_metadata stem content;
     body_text := _extract_body content |}.

Section Methods.

Variable E : externals.

Variable self : ProjectGutenbergText.

(** [token.isalpha()]: one character at least, all of them alphabetic. *)
Definition isalpha (token : str) : bool :=
  match token with
  | [] => false
  | _ => forallb (isalpha_char E) token
  end.

(** [token not in self.stop_words] *)
Definition is_stop_word (token : str) : bool :=
  existsb (str_eqb token) (stop_words E).

(** The condition of the comprehension in [preprocess]. *)
Definition keep_token (token : str) : bool :=
  isalpha token && negb (is_stop_word token) && (2 <? List.length token).

(** The comprehension of [preprocess], token by token. *)
Fixpoint lemmatize_kept (tokens : list str) : result (list str) :=
  match tokens with
  | [] => Ok []
  | token :: rest =>
      if keep_token token then
        (l <- lemmatize E token ;;
         ls <- lemmatize_kept rest ;;
         Ok (l :: ls))%py
      else lemmatize_kept rest
  end.

(** [ProjectGutenbergText.preprocess] *)
Definition preprocess : result (list str) :=
  (tokens <- word_tokenize E (lower E (body_text self)) ;;
   lemmatize_kept tokens)%py.

(** [x if l else 0] around a numpy aggregate. *)
Definition if_nonempty (l : list Q) (f : list Q -> Q) : Q :=
  match l with
  | [] => 0%Q
  | _ => f l
  end.

(** The comprehension of [analyze_sentiment]. *)
Fixpoint compound_of_sentences (sentences : list str) : result (list Q) :=
  match sentences with
  | [] => Ok []
  | sent :: rest =>
      match strip sent with
      | [] => compound_of_sentences rest
      | _ =>
          (sc <- polarity_scores E sent ;;
           cs <- compound_of_sentences rest ;;
           Ok (sc_compound sc :: cs))%py
      end
  end.

(** [ProjectGutenbergText.analyze_sentiment] *)
Definition analyze_sentiment : result sentiment :=
  (sc <- polarity_scores E (body_text self) ;;
   sentences <- sent_tokenize E (body_text self) ;;
   sents <- compound_of_sentences sentences ;;
   Ok {| s_compound := sc_compound sc;
         s_positive := sc_pos sc;
         s_negative := sc_neg sc;
         s_neutral := sc_neu sc;
         s_classification := _classify_sentiment (sc_compound sc);
         s_sentence_sentiments :=
           {| ss_mean := if_nonempty sents (np_mean E);
              ss_std := if_nonempty sents (np_std E);
              ss_min := if_nonempty sents (np_min E);
              ss_max := if_nonempty sents (np_max E) |} |})%py.

(** [len(set(l))] *)
Definition distinct (l : list str) : nat :=
  List.length (nodup str_eq_dec l).

(** [ProjectGutenbergText.analyze_style] *)
Definition analyze_style (tokens : list str) : result style_metrics :=
  (all_tokens <- word_tokenize E (lower E (body_text self)) ;;
   let all_words := filter isalpha all_tokens in
   sentences <- sent_tokenize E (body_text self) ;;
   let unique_words := distinct tokens in
   let total_words := List.length tokens in
   ttr <- ratio_or_zero unique_words total_words ;;
   let unique_all := distinct all_words in
   let total_all := List.length all_words in
   let avg_word_length :=
     if_nonempty
       (map (fun w => inject_Z (Z.of_nat (List.length w))) tokens)
       (np_mean E) in
   avg_sentence_length <-
     match sentences with
     | [] => Ok 0%Q
     | _ => truediv (List.length all_words) (List.length sentences)
     end ;;
   richness <- ratio_or_zero unique_all total_all ;;
   Ok {| type_token_ratio := round E ttr 4;
         unique_words := unique_words;
         total_words := total_words;
         unique_words_all := unique_all;
         total_words_all := total_all;
         avg_word_length := round E avg_word_length 2;
         avg_sentence_length := round E avg_sentence_length 2;
         total_sentences := List.length sentences;
         vocabulary_richness := round E richness 4 |})%py.

(** The body of the loop over [enumerate(lda.components_)]. *)
Definition topic_record (names : list str) (n_words : Z)
  (topic_idx : nat) (topic : list Q) : result topic_info :=
  let top_indices := rev (slice_from (argsort E topic) (- n_words)) in
  (top_words <- mapM (index names) top_indices ;;
   i0 <- index top_indices 0 ;;
   w <- index topic i0 ;;
   Ok {| topic_id := Z.of_nat topic_idx + 1;
         words := top_words;
         weight := w |})%py.

Fixpoint topic_records (names : list str) (n_words : Z)
  (topic_idx : nat) (components : list (list Q)) : result (list topic_info) :=
  match components with
  | [] => Ok []
  | t :: rest =>
      (r <- topic_record names n_words topic_idx t ;;
       rs <- topic_records names n_words (S topic_idx) rest ;;
       Ok (r :: rs))%py
  end.

Definition warning (e : exn) : str :=
  match e with
  | Exception msg =>
      lit "Warning: Topic modeling failed for " ++ pg_id self ++ lit ": "
      ++ msg
  end.

(** [ProjectGutenbergText.extract_topics] *)
Definition extract_topics (n_topics n_words : Z) : M (list topic_info) :=
  (sentences <~ lift (sent_tokenize E (body_text self)) ;;
   if (len sentences <? n_topics)%Z then ret []
   else
     try_except
       (emit (CallFitTransform sentences) ;;;
        v <~ lift (fit_transform E sentences) ;;
        emit (CallLdaFit n_topics) ;;;
        components <~ lift (lda_components E n_topics v) ;;
        lift (topic_records (feature_names v) n_words 0 components))
       (fun e => emit (Printed (warning e)) ;;; ret []))%py.

(** [self.metadata.get('title', 'Unknown')] as [print] shows it: the key is
    always there, an unmatched title is [None]. *)
Definition title_shown : str :=
  match md_title (metadata self) with
  | Some t => t
  | None => lit "None"
  end.

(** [ProjectGutenbergText.analyze] *)
Definition analyze : M analysis :=
  (emit (Printed (lit "Analyzing " ++ pg_id self ++ lit ": " ++ title_shown)) ;;;
   tokens <~ lift preprocess ;;
   bag <~ lift (build_bag_of_words tokens) ;;
   let (top_words, word_frequencies) := bag in
   sentiment <~ lift analyze_sentiment ;;
   style <~ lift (analyze_style tokens) ;;
   topics <~ extract_topics 3 8 ;;
   ret {| a_id := pg_id self;
          a_metadata := metadata self;
          a_top_words := top_words;
          a_word_frequencies := word_frequencies;
          a_sentiment := sentiment;
          a_style_metrics := style;
          a_topics := topics |})%py.

End Methods.

(** ** The specification's words, to compare the code with *)

(** The index just past the line that holds index [i]: after its line
    feed, or the end of the text when the line is the last one. *)
Definition line_end_after (s : str) (i : Z) : Z :=
  let j := find_from s [nl] i in
  if (j =? -1)%Z then len s else (j + 1)%Z.

(** The text strictly between the end of the start marker's line and the
    start of the end marker. *)
Definition text_between_marker_lines (raw : str) : str :=
  slice raw (line_end_after raw (find raw start_marker))
    (find raw end_marker).

(** The text of a line up to its first bracket or its end. *)
Fixpoint up_to_bracket_or_eol (s : str) : str :=
  match s with
  | [] => []
  | c :: s' =>
      if char_eqb c lbracket || char_eqb c nl then []
      else c :: up_to_bracket_or_eol s'
  end.

(** What follows the first occurrence of a label, when there is one. *)
Fixpoint after_label (label s : str) : option str :=
  match after_literal label s with
  | Some rest => Some rest
  | None => match s with
            | [] => None
            | _ :: s' => after_label label s'
            end
  end.

(** The release date as the header line gives it: the text after the
    label up to the first bracket or the end of the line, trimmed. *)
Definition release_date_of_line (raw : str) : option str :=
  option_map (fun rest => strip (up_to_bracket_or_eol rest))
    (after_label (lit "Release date:") raw).

(** The position at which a token is first met; the length of the
    sequence for a token that is not in it. *)
Fixpoint first_index (w : str) (tokens : list str) : nat :=
  match tokens with
  | [] => 0
  | t :: rest => if str_eq_dec t w then 0 else S (first_index w rest)
  end.

(** [a] divided by [b], and 0 when [b] is 0. *)
Definition ratio (a b : nat) : Q :=
  match b with
  | O => 0%Q
  | S _ => (Z.of_nat a # Pos.of_nat b)%Q
  end.

(** What [numpy.argsort] promises for a topic: the indices of the topic,
    each once, by ascending weight. *)
Definition argsort_ascending (E : externals) (topic : list Q) : Prop :=
  Permutation (argsort E topic) (seq 0 (List.length topic)) /\
  StronglySorted (fun i j => (nth i topic 0 <= nth j topic 0)%Q)
    (argsort E topic).

(** The indices of the [n] highest weights of a topic, the highest
    first. *)
Definition top_indices (E : externals) (n : nat) (topic : list Q)
  : list nat :=
  firstn n (rev (argsort E topic)).

(** The record of a topic: its number, the names of its [n] highest
    weights, and the weight of the first of them. *)
Definition topic_of (E : externals) (names : list str) (n : nat)
  (topic_idx : nat) (topic : list Q) : topic_info :=
  {| topic_id := Z.of_nat topic_idx + 1;
     words := map (fun i => nth i names []) (top_indices E n topic);
     weight := nth (hd 0 (top_indices E n topic)) topic 0%Q |}.

(** The entry [build_bag_of_words] makes of an item of the counter when
    the tokens are not empty. *)
Definition entry_of (tokens : list str) (wc : str * nat) : word_entry :=
  {| word := fst wc;
     count := snd wc;
     frequency := (Z.of_nat (snd wc) # Pos.of_nat (List.length tokens))%Q |}.

(** Descending count, and a given order among equal counts. *)
Definition by_count_then (before : str * nat -> str * nat -> Prop)
  (a b : str * nat) : Prop :=
  snd b < snd a \/ (snd a = snd b /\ before a b).

(** The order of [top_words]: a higher count first, and among equal
    counts the token met first. *)
Definition ranks_before (tokens : list str) (a b : word_entry) : Prop :=
  count b < count a \/
  (count a = count b /\
   first_index (word a) tokens < first_index (word b) tokens).

(** ** A small instance of the libraries

    Enough of each library to run the methods on short texts: tokens are
    the runs between spaces, sentences end with a full stop, the
    lemmatizer leaves a token as it is, every text scores zero, and the
    vectorizer and the topic model answer with fixed tables. *)

Module Sample.

Definition lower_char (c : char) : char :=
  if ((65 <=? c) && (c <=? 90))%N then (c + 32)%N else c.

Definition is_letter (c : char) : bool :=
  ((65 <=? c) && (c <=? 90) || (97 <=? c) && (c <=? 122))%N.

Fixpoint split_spaces (s cur : str) : list str :=
  match s with
  | [] => match cur with [] => [] | _ => [rev cur] end
  | c :: s' =>
      if isspace c then
        match cur with
        | [] => split_spaces s' []
        | _ => rev cur :: split_spaces s' []
        end
      else split_spaces s' (c :: cur)
  end.

Definition full_stop : char := 46%N.

Fixpoint split_sentences (s cur : str) : list str :=
  match s with
  | [] => match strip (rev cur) with [] => [] | t => [t] end
  | c :: s' =>
      if char_eqb c full_stop then
        strip (rev (c :: cur)) :: split_sentences s' []
      else split_sentences s' (c :: cur)
  end.

Definition mean (l : list Q) : Q :=
  (fold_right Qplus 0 l / inject_Z (Z.of_nat (List.length l)))%Q.

Definition smaller (a b : Q) : Q := if Qle_bool a b then a else b.
Definition larger (a b : Q) : Q := if Qle_bool a b then b else a.

Definition minimum (l : list Q) : Q :=
  match l with
  | [] => 0%Q
  | x :: l' => fold_right smaller x l'
  end.

Definition maximum (l : list Q) : Q :=
  match l with
  | [] => 0%Q
  | x :: l' => fold_right larger x l'
  end.

(** Indices in ascending order of the values: an insertion sort. *)
Fixpoint insert_index (v : list Q) (i : nat) (l : list nat) : list nat :=
  match l with
  | [] => [i]
  | j :: l' =>
      if Qle_bool (nth i v 0%Q) (nth j v 0%Q) then i :: l
      else j :: insert_index v i l'
  end.

Definition sort_indices (v : list Q) : list nat :=
  fold_right (insert_index v) [] (seq 0 (List.length v)).

Definition vocabulary : list str := [lit "cat"; lit "fast"; lit "ran"].

Definition vectorize (sentences : list str) : result vectorized :=
  match sentences with
  | [] => Raise (Exception (lit "empty vocabulary"))
  | _ => Ok {| feature_names := vocabulary;
               doc_term_matrix := map (fun _ => [1; 1; 1]) sentences |}
  end.

Definition components (n : Z) (v : vectorized) : result (list (list Q)) :=
  if (n <=? 0)%Z then Raise (Exception (lit "n_components must be positive"))
  else Ok (repeat [1 # 2; 5 # 2; 3 # 2]%Q (Z.to_nat n)).

(** Ties to the even neighbour. *)
Definition tie_to_even (q : Q) : bool :=
  negb (Z.even (Qnum q / Zpos (Qden q))).

Definition libraries : externals :=
  {| lower := map lower_char;
     isalpha_char := is_letter;
     round_tie_up := tie_to_even;
     word_tokenize := fun s => Ok (split_spaces s []);
     sent_tokenize := fun s => Ok (split_sentences s []);
     stop_words := [lit "the"; lit "and"; lit "was"];
     lemmatize := fun t => Ok t;
     polarity_scores := fun _ =>
       Ok {| sc_compound := 0; sc_pos := 0; sc_neg := 0; sc_neu := 1 |};
     np_mean := mean;
     np_std := fun _ => 0%Q;
     np_min := minimum;
     np_max := maximum;
     argsort := sort_indices;
     fit_transform := vectorize;
     lda_components := components |}.

(** A vectorizer that finds no term to keep. *)
Definition failing : externals :=
  {| lower := lower libraries;
     isalpha_char := isalpha_char libraries;
     round_tie_up := tie_to_even;
     word_tokenize := word_tokenize libraries;
     sent_tokenize := sent_tokenize libraries;
     stop_words := stop_words libraries;
     lemmatize := lemmatize libraries;
     polarity_scores := polarity_scores libraries;
     np_mean := mean;
     np_std := fun _ => 0%Q;
     np_min := minimum;
     np_max := maximum;
     argsort := sort_indices;
     fit_transform := fun _ => Raise (Exception (lit "empty vocabulary"));
     lda_components := components |}.

Definition cat_text : str := lit "The cat sat. The cat ran fast.".

(** A file with a header and the two markers around [cat_text]. *)
Definition cat_file : str :=
  lit "Title: Foo" ++ [nl] ++ lit "Author: Bar" ++ [nl]
  ++ lit "*** START OF THE PROJECT GUTENBERG EBOOK FOO ***" ++ [nl]
  ++ cat_text ++ [nl]
  ++ lit "*** END OF THE PROJECT GUTENBERG EBOOK FOO ***" ++ [nl].

Definition cat_document : ProjectGutenbergText :=
  __init__ (lit "pg1") cat_file.

(** The same text in a file without markers. *)
Definition bare_document : ProjectGutenbergText :=
  __init__ (lit "pg2") cat_text.

End Sample.

(** ** The corpus: [analyze_corpus]

    The directory is given by what the function gets from it: the files
    [pg*.txt] in sorted order, each with its path as printed, the stem of
    its name and what reading it gives. *)

Record text_file := {
  f_path : str;
  f_stem : str;
  f_read : result str
}.

(** The report: [results]. *)
Record corpus_results := {
  total_texts : nat;
  analysis_date : option str;
  texts : list analysis
}.

(** What the run leaves behind: the events of the documents and the lines
    of the corpus, and the report handed to [json.dump]. *)
Inductive corpus_event :=
| Ev (e : event)
| Dump (output_file : str) (results : corpus_results).

(** [str(n)] for a count. *)
Fixpoint digits (u : Decimal.uint) : str :=
  match u with
  | Decimal.Nil => []
  | Decimal.D0 u' => 48%N :: digits u'
  | Decimal.D1 u' => 49%N :: digits u'
  | Decimal.D2 u' => 50%N :: digits u'
  | Decimal.D3 u' => 51%N :: digits u'
  | Decimal.D4 u' => 52%N :: digits u'
  | Decimal.D5 u' => 53%N :: digits u'
  | Decimal.D6 u' => 54%N :: digits u'
  | Decimal.D7 u' => 55%N :: digits u'
  | Decimal.D8 u' => 56%N :: digits u'
  | Decimal.D9 u' => 57%N :: digits u'
  end.

Definition str_of_nat (n : nat) : str := digits (Nat.to_uint n).

Section Corpus.

(** The libraries as the constructors of the lemmatizer, of the stop-word
    set and of the sentiment analyzer leave them in [__init__], or the
    exception that one of them raises. *)
Variable analyzers : result externals.

(** [open(output_file, 'w')] and [json.dump]. *)
Variable dump : str -> corpus_results -> result unit.

(** [str(output_file)] for [corpus_path / 'corpus_analysis.json']. *)
Variable output_file : str.

(** [ProjectGutenbergText(filepath)] followed by [analyze()]. *)
Definition analyze_file (f : text_file) : M analysis :=
  (content <~ lift (f_read f) ;;
   E <~ lift analyzers ;;
   analyze E (__init__ (f_stem f) content))%py.

Definition error_line (f : text_file) (e : exn) : str :=
  match e with
  | Exception msg => lit "Error analyzing " ++ f_path f ++ lit ": " ++ msg
  end.

(** The loop over [text_files]: the trace and [results['texts']]. *)
Fixpoint analyze_files (files : list text_file)
  : list corpus_event * list analysis :=
  match files with
  | [] => ([], [])
  | f :: rest =>
      let (t, r) := analyze_file f in
      let (t', analyses) := analyze_files rest in
      match r with
      | Ok a => (map Ev t ++ t', a :: analyses)
      | Raise e =>
          (map Ev t ++ Ev (Printed (error_line f e)) :: t', analyses)
      end
  end.

(** [analyze_corpus], [None] for the bare [return]. *)
Definition analyze_corpus (files : list text_file)
  : list corpus_event * result (option corpus_results) :=
  match files with
  | [] =>
      ([Ev (Printed (lit "No Project Gutenberg files (pg*.txt) found!"))],
       Ok None)
  | _ =>
      let found :=
        Ev (Printed (lit "Found " ++ str_of_nat (List.length files)
                     ++ lit " texts to analyze" ++ [nl])) in
      let (t, analyses) := analyze_files files in
      let results :=
        {| total_texts := List.length files;
           analysis_date := None;
           texts := analyses |} in
      match dump output_file results with
      | Raise e => (found :: t ++ [Dump output_file results], Raise e)
      | Ok _ =>
          (found :: t
           ++ [Dump output_file results;
               Ev (Printed ([nl; 226%N; 339%N; 8220%N]
                            ++ lit " Analysis complete! Results saved to "
                            ++ output_file));
               Ev (Printed (lit "  Analyzed "
                            ++ str_of_nat (List.length analyses)
                            ++ lit " texts"))],
           Ok (Some results))
      end
  end.

End Corpus.

(** ** Words for the further properties *)

(** A text without a line feed, without a bracket. *)
Definition no_line_feed (s : str) : bool :=
  forallb (fun c => negb (char_eqb c nl)) s.

Definition no_bracket (s : str) : bool :=
  forallb (fun c => negb (char_eqb c lbracket)) s.

(** Where a line ends: at the end of the text or before a line feed. *)
Definition line_ends (tail : str) : Prop :=
  tail = [] \/ exists t, tail = nl :: t.

(** The header of a document, in the words of the specification: the text
    before the start marker, and its lines ([header.split('\n')]). *)
Definition header_of (raw : str) : str :=
  slice raw 0 (find raw start_marker).

Fixpoint lines_of (s : str) : list str :=
  match s with
  | [] => [[]]
  | c :: s' =>
      if char_eqb c nl then [] :: lines_of s'
      else match lines_of s' with
           | l :: ls => (c :: l) :: ls
           | [] => [[c]]
           end
  end.

(** The classes from the lowest to the highest. *)
Definition class_rank (c : sentiment_class) : nat :=
  match c with
  | Sentiment.negative => 0
  | Sentiment.neutral => 1
  | Sentiment.positive => 2
  end.

(** [sent.strip()] as a condition. *)
Definition nonblank (sent : str) : bool :=
  match strip sent with
  | [] => false
  | _ => true
  end.

(** [sum(l)] *)
Definition qsum (l : list Q) : Q := fold_right Qplus 0%Q l.

Section CorpusWords.

Variable analyzers : result externals.

(** Whether the analysis of a file returns. *)
Definition returned (f : text_file) : bool :=
  match snd (analyze_file analyzers f) with
  | Ok _ => true
  | Raise _ => false
  end.

(** The report of a run over the files. *)
Definition report (files : list text_file) : corpus_results :=
  {| total_texts := List.length files;
     analysis_date := None;
     texts := snd (analyze_files analyzers files) |}.

End CorpusWords.

Definition is_dump (e : corpus_event) : bool :=
  match e with
  | Dump _ _ => true
  | Ev _ => false
  end.

(** ** A small corpus: a file that reads and one that does not *)

Module SampleCorpus.

Definition good : text_file :=
  {| f_path := lit "pg1.txt";
     f_stem := lit "pg1";
     f_read := Ok Sample.cat_file |}.

Definition unreadable : text_file :=
  {| f_path := lit "pg2.txt";
     f_stem := lit "pg2";
     f_read := Raise (Exception (lit "invalid start byte")) |}.

Definition saves (path : str) (r : corpus_results) : result unit := Ok tt.

Definition read_only (path : str) (r : corpus_results) : result unit :=
  Raise (Exception (lit "Permission denied")).

Definition out : str := lit "corpus_analysis.json".

End SampleCorpus.

(** * Properties *)

Unset Implicit Arguments.

(** ** Strings *)

Lemma startswith_app (p t : str) : startswith p (p ++ t) = true.
Proof.
  induction p as [|a p IH]; simpl; [reflexivity|].
  unfold char_eqb. rewrite N.eqb_refl. exact IH.
Qed.

Lemma startswith_inv (p s : str) :
  startswith p s = true -> exists t, s = p ++ t.
Proof.
  revert s. induction p as [|a p IH]; intros s H.
  - exists s. reflexivity.
  - destruct s as [|b s]; simpl in H; [discriminate|].
    apply andb_true_iff in H. destruct H as [Hab Hs].
    apply N.eqb_eq in Hab. subst b.
    destruct (IH _ Hs) as [t ->]. exists t. reflexivity.
Qed.

(** [find_at] returns the first position where the pattern starts, counted
    from the index it was given. *)
Lemma find_at_found (sub s : str) (i j : Z) :
  find_at sub s i = j -> j <> (-1)%Z -> (0 <= i)%Z ->
  exists k, j = (i + Z.of_nat k)%Z /\ k <= List.length s /\
    startswith sub (skipn k s) = true /\
    forall k', k' < k -> startswith sub (skipn k' s) = false.
Proof.
  revert i. induction s as [|c s IH]; intros i H Hj Hi; simpl in H.
  - destruct (startswith sub []) eqn:Hs.
    + exists 0. repeat split; simpl; try lia; assumption.
    + congruence.
  - destruct (startswith sub (c :: s)) eqn:Hs.
    + exists 0. repeat split; simpl; try lia; assumption.
    + destruct (IH (i + 1)%Z H Hj ltac:(lia)) as (k & -> & Hk & Hm & Hlt).
      exists (S k). repeat split; simpl; try lia; try assumption.
      intros [|k'] Hk'; simpl; [assumption|]. apply Hlt. lia.
Qed.

Lemma find_at_absent (sub s : str) (i : Z) :
  find_at sub s i = (-1)%Z -> (0 <= i)%Z ->
  forall k, k <= List.length s -> startswith sub (skipn k s) = false.
Proof.
  revert i. induction s as [|c s IH]; intros i H Hi k Hk; simpl in H.
  - destruct (startswith sub []) eqn:Hs; [lia|].
    destruct k; simpl in *; [assumption|lia].
  - destruct (startswith sub (c :: s)) eqn:Hs; [lia|].
    destruct k as [|k]; simpl in *; [assumption|].
    apply (IH (i + 1)%Z); [assumption|lia|lia].
Qed.

Lemma find_unfold (s sub : str) : find s sub = find_at sub s 0.
Proof.
  unfold find, find_from, clip, len.
  destruct (Z.of_nat (List.length s) <? 0)%Z eqn:H; [apply Z.ltb_lt in H; lia|].
  simpl (0 <? 0)%Z. cbv iota.
  rewrite Z.min_l by lia. reflexivity.
Qed.

(** [find] answers [-1] exactly when the pattern occurs nowhere. *)
Lemma find_present_iff (s sub : str) :
  find s sub <> (-1)%Z <-> exists pre post, s = pre ++ sub ++ post.
Proof.
  rewrite find_unfold. split.
  - intros H.
    destruct (find_at_found sub s 0 _ eq_refl H ltac:(lia))
      as (k & _ & _ & Hm & _).
    apply startswith_inv in Hm. destruct Hm as [t Ht].
    exists (firstn k s), t. rewrite <- Ht. symmetry. apply firstn_skipn.
  - intros (pre & post & ->) H.
    pose proof (find_at_absent sub (pre ++ sub ++ post) 0 H ltac:(lia)
                  (List.length pre)) as Hk.
    rewrite skipn_app, skipn_all, Nat.sub_diag in Hk. simpl in Hk.
    rewrite startswith_app in Hk.
    assert (false = true) by (symmetry; apply Hk; rewrite length_app; lia).
    discriminate.
Qed.

(** ** Body extraction *)

(** A missing marker gives the empty body. *)
Lemma extract_body_marker_absent (raw : str) :
  find raw start_marker = (-1)%Z \/ find raw end_marker = (-1)%Z ->
  _extract_body raw = [].
Proof.
  unfold _extract_body. intros [H|H]; rewrite H; simpl.
  - reflexivity.
  - rewrite andb_false_r. reflexivity.
Qed.

(** With both markers in the text and a line feed after the start marker,
    the body is the text between the markers' lines, stripped of the
    spaces around it and then of the byte-order marks it starts with. *)
Lemma extract_body_between (raw : str) :
  find raw start_marker <> (-1)%Z ->
  find raw end_marker <> (-1)%Z ->
  find_from raw [nl] (find raw start_marker) <> (-1)%Z ->
  _extract_body raw =
  lstrip_by (char_eqb bom) (strip (text_between_marker_lines raw)).
Proof.
  intros Hs He Hn.
  unfold _extract_body, text_between_marker_lines, line_end_after.
  apply Z.eqb_neq in Hs, He, Hn. rewrite Hs, He, Hn. reflexivity.
Qed.

Lemma find_at_skip (sub p s : str) (i : Z) :
  (forall k, k < List.length p -> startswith sub (skipn k (p ++ s)) = false) ->
  find_at sub (p ++ s) i = find_at sub s (i + len p)%Z.
Proof.
  revert i. unfold len. induction p as [|c p IH]; intros i H; simpl.
  - f_equal. lia.
  - pose proof (H 0 ltac:(simpl; lia)) as H0. simpl in H0.
    destruct (startswith sub (c :: p ++ s)); [discriminate|].
    rewrite IH.
    + f_equal. lia.
    + intros k Hk. apply (H (S k)). simpl. lia.
Qed.

Lemma find_line_feed_skip (p s : str) (i : Z) :
  forallb (fun c => negb (char_eqb nl c)) p = true ->
  find_at [nl] (p ++ s) i = find_at [nl] s (i + len p)%Z.
Proof.
  intros H. apply find_at_skip. revert H.
  induction p as [|c p IH]; intros H k Hk; simpl in *; [lia|].
  apply andb_true_iff in H. destruct H as [Hc Hp].
  destruct k as [|k]; simpl.
  - apply negb_true_iff in Hc. rewrite Hc. reflexivity.
  - apply IH; [exact Hp|lia].
Qed.

Lemma len_app {A} (a b : list A) : len (a ++ b) = (len a + len b)%Z.
Proof. unfold len. rewrite length_app. lia. Qed.

Lemma slice_middle (a b c : str) :
  slice (a ++ b ++ c) (len a) (len a + len b) = b.
Proof.
  unfold slice, clip, len.
  destruct (Z.of_nat (List.length a) <? 0)%Z eqn:H1;
    [apply Z.ltb_lt in H1; lia|].
  destruct (Z.of_nat (List.length a) + Z.of_nat (List.length b) <? 0)%Z
    eqn:H2; [apply Z.ltb_lt in H2; lia|].
  rewrite !length_app.
  rewrite !Z.min_l by lia.
  replace (Z.to_nat (Z.of_nat (List.length a) + Z.of_nat (List.length b)
                     - Z.of_nat (List.length a)))%Z
    with (List.length b) by lia.
  rewrite Nat2Z.id, skipn_app, skipn_all, Nat.sub_diag. simpl.
  rewrite firstn_app, firstn_all, Nat.sub_diag. simpl.
  apply app_nil_r.
Qed.

Lemma marker_has_no_line_feed :
  forallb (fun c => negb (char_eqb nl c)) start_marker = true.
Proof. vm_compute. reflexivity. Qed.

Opaque start_marker end_marker.

(** X3. A document as the files have it: a header, the start marker's line up
    to its line feed, the text, and the end marker, each marker first found
    where the document has it. The body is the text, stripped of the spaces
    around it and then of the byte-order marks it starts with. *)
Lemma extract_body_of_document (header line text footer : str) :
  let raw := header ++ (start_marker ++ line ++ [nl]) ++ text
             ++ end_marker ++ footer in
  forallb (fun c => negb (char_eqb nl c)) line = true ->
  find raw start_marker = len header ->
  find raw end_marker
  = (len (header ++ start_marker ++ line ++ [nl]) + len text)%Z ->
  text_between_marker_lines raw = text /\
  _extract_body raw = lstrip_by (char_eqb bom) (strip text).
Proof.
  intros raw Hline Hs He.
  assert (Hpos : forall s : str, (0 <= len s)%Z) by (intros s; unfold len; lia).
  assert (Hraw : (len header <= len raw)%Z).
  { subst raw. rewrite len_app.
    pose proof (Hpos ((start_marker ++ line ++ [nl])
                      ++ text ++ end_marker ++ footer)). lia. }
  assert (Hnl : find_from raw [nl] (len header)
                = (len header + len (start_marker ++ line))%Z).
  { unfold find_from, clip.
    destruct (len raw <? len header)%Z eqn:H1;
      [apply Z.ltb_lt in H1; lia|].
    destruct (len header <? 0)%Z eqn:H2;
      [apply Z.ltb_lt in H2; pose proof (Hpos header); lia|].
    rewrite Z.min_l by exact Hraw.
    unfold len at 1. rewrite Nat2Z.id. subst raw.
    rewrite skipn_app, skipn_all, Nat.sub_diag, skipn_0, app_nil_l.
    replace ((start_marker ++ line ++ [nl]) ++ text ++ end_marker ++ footer)
      with ((start_marker ++ line) ++ [nl] ++ text ++ end_marker ++ footer)
      by (rewrite <- !app_assoc; reflexivity).
    rewrite find_line_feed_skip.
    - reflexivity.
    - rewrite forallb_app, Hline, marker_has_no_line_feed. reflexivity. }
  assert (Hend : (len header + len (start_marker ++ line) + 1)%Z
                 = len (header ++ start_marker ++ line ++ [nl])).
  { rewrite (len_app header), (len_app start_marker line),
      (len_app start_marker (line ++ [nl])), (len_app line [nl]).
    unfold len at 7. simpl. lia. }
  assert (Hbetween : text_between_marker_lines raw = text).
  { unfold text_between_marker_lines, line_end_after.
    rewrite Hs, Hnl, He.
    destruct (len header + len (start_marker ++ line) =? -1)%Z eqn:H1.
    { apply Z.eqb_eq in H1. pose proof (Hpos header).
      pose proof (Hpos (start_marker ++ line)). lia. }
    rewrite Hend. subst raw.
    replace (header ++ (start_marker ++ line ++ [nl]) ++ text
             ++ end_marker ++ footer)
      with ((header ++ start_marker ++ line ++ [nl]) ++ text
            ++ end_marker ++ footer)
      by (rewrite <- !app_assoc; reflexivity).
    apply slice_middle. }
  split; [exact Hbetween|].
  rewrite extract_body_between, Hbetween; [reflexivity| | |].
  - rewrite Hs. pose proof (Hpos header). lia.
  - rewrite He. pose proof (Hpos (header ++ start_marker ++ line ++ [nl])).
    pose proof (Hpos text). lia.
  - rewrite Hs, Hnl. pose proof (Hpos header).
    pose proof (Hpos (start_marker ++ line)). lia.
Qed.

Transparent start_marker end_marker.

(** C1. A text whose end marker comes first and whose start marker is on
    the last line, with no line feed after it: both markers are found,
    nothing lies between the end of the start marker's line and the end
    marker, and [_extract_body] returns the header text before the end
    marker. *)
Theorem extract_body_start_marker_on_last_line :
  let raw := lit "A" ++ [nl] ++ end_marker ++ [nl] ++ start_marker in
  find raw start_marker = 41%Z /\
  find raw end_marker = 2%Z /\
  find_from raw [nl] (find raw start_marker) = (-1)%Z /\
  text_between_marker_lines raw = [] /\
  _extract_body raw = lit "A".
Proof. vm_compute. repeat split. Qed.

(** ** Header fields *)

(** C8. A header whose release-date line carries no bracket and is not the
    last line: the line gives a date, the pattern does not match (its [$]
    only holds at the end of the text) and the field stays [None]. *)
Theorem release_date_without_bracket :
  let raw := lit "Release date: January 1, 2000" ++ [nl]
             ++ lit "Language: English" ++ [nl] in
  release_date_of_line raw = Some (lit "January 1, 2000") /\
  re_search match_release_date raw = None /\
  md_release_date (_extract_metadata (lit "pg1") raw) = None.
Proof. vm_compute. repeat split. Qed.

(** The same line with the bracketed annotation, or as the last line of
    the text, gives the date. *)
Lemma release_date_with_bracket :
  md_release_date
    (_extract_metadata (lit "pg1")
       (lit "Release date: January 1, 2000 [eBook #1]" ++ [nl]
        ++ lit "Language: English" ++ [nl]))
  = Some (lit "January 1, 2000").
Proof. vm_compute. reflexivity. Qed.

Lemma release_date_on_last_line :
  md_release_date
    (_extract_metadata (lit "pg1")
       (lit "Title: Foo" ++ [nl] ++ lit "Release date: January 1, 2000"
        ++ [nl]))
  = Some (lit "January 1, 2000").
Proof. vm_compute. reflexivity. Qed.

Lemma after_literal_none (p s : str) :
  startswith p s = false -> after_literal p s = None.
Proof.
  revert s. induction p as [|a p IH]; intros s H; simpl in *.
  - discriminate.
  - destruct s as [|b s]; [reflexivity|].
    destruct (char_eqb a b); simpl in H; [apply IH; assumption|reflexivity].
Qed.

(** [re.search] returns the match at the first position that has one. *)
Lemma re_search_first (m : str -> option str) (s : str) (k : nat) (g : str) :
  (forall k', k' < k -> m (skipn k' s) = None) ->
  m (skipn k s) = Some g ->
  re_search m s = Some g.
Proof.
  revert s. induction k as [|k IH]; intros s Hlt Hk.
  - simpl in Hk. destruct s; simpl; rewrite Hk; reflexivity.
  - pose proof (Hlt 0 ltac:(lia)) as H0. simpl in H0.
    destruct s as [|c s].
    + simpl in Hk. congruence.
    + simpl. rewrite H0. apply IH; [|exact Hk].
      intros k' Hk'. apply (Hlt (S k')). lia.
Qed.

Lemma re_search_nowhere (m : str -> option str) (s : str) :
  (forall k, k <= List.length s -> m (skipn k s) = None) ->
  re_search m s = None.
Proof.
  induction s as [|c s IH]; intros H.
  - pose proof (H 0 ltac:(simpl; lia)) as H0. simpl in *. rewrite H0.
    reflexivity.
  - pose proof (H 0 ltac:(simpl; lia)) as H0. simpl in *. rewrite H0.
    apply IH.
    intros k Hk. apply (H (S k)). simpl. lia.
Qed.

(** A pattern that begins with a label matches nowhere in a text without
    the label, and first where the label first occurs, when it matches
    there. *)
Lemma search_label_absent (label : str) (k : str -> option str) (s : str) :
  find s label = (-1)%Z ->
  re_search
    (fun t => match after_literal label t with
              | Some t' => k t'
              | None => None
              end) s = None.
Proof.
  intros H. rewrite find_unfold in H.
  apply re_search_nowhere. intros n Hn.
  rewrite after_literal_none; [reflexivity|].
  apply (find_at_absent label s 0 H); lia.
Qed.

Lemma search_label_first (label : str) (k : str -> option str)
  (pre t g : str) :
  find (pre ++ t) label = len pre ->
  match after_literal label t with
  | Some t' => k t'
  | None => None
  end = Some g ->
  re_search
    (fun t => match after_literal label t with
              | Some t' => k t'
              | None => None
              end) (pre ++ t) = Some g.
Proof.
  intros H Hm. rewrite find_unfold in H.
  destruct (find_at_found label (pre ++ t) 0 _ H) as (n & Hn & _ & _ & Hlt).
  - unfold len. lia.
  - lia.
  - unfold len in Hn. assert (n = List.length pre) by lia. subst n.
    apply re_search_first with (k := List.length pre).
    + intros k' Hk'. rewrite after_literal_none; [reflexivity|].
      apply Hlt. exact Hk'.
    + rewrite skipn_app, skipn_all, Nat.sub_diag. simpl. exact Hm.
Qed.

(** ** Sentiment classification *)

Lemma classify_sentiment_compat (c c' : Q) :
  (c == c')%Q -> _classify_sentiment c = _classify_sentiment c'.
Proof.
  intros H. unfold _classify_sentiment.
  assert (H1 : Qle_bool (5 # 100) c = Qle_bool (5 # 100) c').
  { apply eq_true_iff_eq. rewrite !Qle_bool_iff. rewrite H. reflexivity. }
  assert (H2 : Qle_bool c (- (5 # 100)) = Qle_bool c' (- (5 # 100))).
  { apply eq_true_iff_eq. rewrite !Qle_bool_iff. rewrite H. reflexivity. }
  rewrite H1, H2. reflexivity.
Qed.

(** C5. The class is decided by the compound score alone, against the
    two constants: at least 0.05 is positive, at most -0.05 is negative,
    anything between is neutral; 0.05 itself is positive, -0.05 negative
    and 0 neutral. *)
Theorem classify_sentiment_thresholds (compound : Q) :
  ((5 # 100 <= compound)%Q ->
   _classify_sentiment compound = Sentiment.positive) /\
  ((compound <= - (5 # 100))%Q ->
   _classify_sentiment compound = Sentiment.negative) /\
  ((- (5 # 100) < compound)%Q -> (compound < 5 # 100)%Q ->
   _classify_sentiment compound = Sentiment.neutral) /\
  _classify_sentiment (5 # 100) = Sentiment.positive /\
  _classify_sentiment (- (5 # 100)) = Sentiment.negative /\
  _classify_sentiment 0 = Sentiment.neutral.
Proof.
  unfold _classify_sentiment. repeat split.
  - intros H. apply Qle_bool_iff in H. rewrite H. reflexivity.
  - intros H.
    destruct (Qle_bool (5 # 100) compound) eqn:Hp.
    + apply Qle_bool_iff in Hp.
      assert (Habs : (5 # 100 <= - (5 # 100))%Q)
        by (eapply Qle_trans; eassumption).
      vm_compute in Habs. exfalso. apply Habs. reflexivity.
    + apply Qle_bool_iff in H. rewrite H. reflexivity.
  - intros Hlo Hhi.
    destruct (Qle_bool (5 # 100) compound) eqn:Hp.
    + apply Qle_bool_iff in Hp. exfalso.
      exact (Qlt_not_le _ _ Hhi Hp).
    + destruct (Qle_bool compound (- (5 # 100))) eqn:Hn; [|reflexivity].
      apply Qle_bool_iff in Hn. exfalso.
      exact (Qlt_not_le _ _ Hlo Hn).
Qed.

Lemma classify_sentiment_thresholds_witness :
  _classify_sentiment (7 # 10) = Sentiment.positive /\
  _classify_sentiment (- (3 # 10)) = Sentiment.negative /\
  _classify_sentiment (1 # 100) = Sentiment.neutral.
Proof.
  split; [|split].
  - destruct (classify_sentiment_thresholds (7 # 10)) as (H & _).
    apply H. vm_compute. discriminate.
  - destruct (classify_sentiment_thresholds (- (3 # 10))) as (_ & H & _).
    apply H. vm_compute. discriminate.
  - destruct (classify_sentiment_thresholds (1 # 100)) as (_ & _ & H & _).
    apply H; vm_compute; reflexivity.
Defined.

(** ** Comprehensions *)

Lemma mapM_Forall2 {A B} (f : A -> result B) (l : list A) (out : list B) :
  mapM f l = Ok out <-> Forall2 (fun a b => f a = Ok b) l out.
Proof.
  revert out. induction l as [|a l IH]; intros out; simpl.
  - split; intros H.
    + injection H as <-. constructor.
    + inversion H. reflexivity.
  - split; intros H.
    + destruct (f a) as [b|e] eqn:Hf; [|discriminate].
      destruct (mapM f l) as [bs|e]; [|discriminate].
      injection H as <-. constructor; [assumption|]. apply IH. reflexivity.
    + inversion H as [|a' b l' bs Hf Hrest]; subst.
      rewrite Hf. apply IH in Hrest. rewrite Hrest. reflexivity.
Qed.

Lemma mapM_app {A B} (f : A -> result B) (l1 l2 : list A) :
  mapM f (l1 ++ l2) =
  (o1 <- mapM f l1 ;; o2 <- mapM f l2 ;; Ok (o1 ++ o2))%py.
Proof.
  induction l1 as [|a l1 IH]; simpl.
  - destruct (mapM f l2); reflexivity.
  - destruct (f a); [|reflexivity]. rewrite IH.
    destruct (mapM f l1); simpl; [|reflexivity].
    destruct (mapM f l2); reflexivity.
Qed.

Lemma count_occ_filter (keep : str -> bool) (l : list str) (t : str) :
  count_occ str_eq_dec (filter keep l) t =
  if keep t then count_occ str_eq_dec l t else 0.
Proof.
  induction l as [|a l IH]; simpl.
  - destruct (keep t); reflexivity.
  - destruct (keep a) eqn:Ha; simpl.
    + destruct (str_eq_dec a t) as [->|Hne].
      * rewrite IH, Ha. reflexivity.
      * exact IH.
    + destruct (str_eq_dec a t) as [->|Hne].
      * rewrite IH, Ha. reflexivity.
      * exact IH.
Qed.

Lemma str_eqb_eq (a b : str) : str_eqb a b = true <-> a = b.
Proof.
  unfold str_eqb. destruct (str_eq_dec a b); split; congruence.
Qed.

(** ** The preprocessor *)

Section Preprocess.

Variable E : externals.
Variable self : ProjectGutenbergText.

Lemma lemmatize_kept_filter (tokens : list str) :
  lemmatize_kept E tokens = mapM (lemmatize E) (filter (keep_token E) tokens).
Proof.
  induction tokens as [|t tokens IH]; simpl; [reflexivity|].
  destruct (keep_token E t); simpl; [|exact IH].
  destruct (lemmatize E t); simpl; [|reflexivity].
  rewrite IH. destruct (mapM _ _); reflexivity.
Qed.

(** What is made of a concatenation is what is made of its parts, in
    their order. *)
Lemma lemmatize_kept_app (tokens1 tokens2 : list str) :
  lemmatize_kept E (tokens1 ++ tokens2) =
  (out1 <- lemmatize_kept E tokens1 ;;
   out2 <- lemmatize_kept E tokens2 ;;
   Ok (out1 ++ out2))%py.
Proof.
  rewrite !lemmatize_kept_filter, filter_app. apply mapM_app.
Qed.

Lemma keep_token_iff (token : str) :
  keep_token E token = true <->
  Forall (fun c => isalpha_char E c = true) token /\
  ~ In token (stop_words E) /\
  2 < List.length token.
Proof.
  unfold keep_token, is_stop_word, isalpha.
  rewrite !andb_true_iff, negb_true_iff, Nat.ltb_lt.
  split.
  - intros [[Ha Hs] Hl]. repeat split; [| |exact Hl].
    + destruct token; [discriminate|]. apply Forall_forall.
      apply forallb_forall. exact Ha.
    + intros Hin.
      assert (existsb (str_eqb token) (stop_words E) = true)
        by (apply existsb_exists; exists token; split;
            [exact Hin|apply str_eqb_eq; reflexivity]).
      congruence.
  - intros (Ha & Hs & Hl). repeat split; [| |exact Hl].
    + destruct token; [simpl in Hl; lia|].
      apply forallb_forall. apply Forall_forall. exact Ha.
    + destruct (existsb (str_eqb token) (stop_words E)) eqn:Hex;
        [|reflexivity].
      apply existsb_exists in Hex. destruct Hex as (w & Hin & Heq).
      apply str_eqb_eq in Heq. subst w. contradiction.
Qed.

(** C3. [preprocess] tokenizes the lowercased body, keeps the tokens that
    are alphabetic, are no stop word and are longer than 2, and lemmatizes
    each of them: the result is the lemmas of the kept tokens position by
    position; every kept token occurs among the kept ones as often as
    among the tokens; and what is made of a concatenation of tokens is what
    is made of its first part followed by what is made of its second. *)
Theorem preprocess_filter_lemmatize :
  preprocess E self =
    (tokens <- word_tokenize E (lower E (body_text self)) ;;
     mapM (lemmatize E) (filter (keep_token E) tokens))%py /\
  (forall token,
     keep_token E token = true <->
     Forall (fun c => isalpha_char E c = true) token /\
     ~ In token (stop_words E) /\
     2 < List.length token) /\
  (forall out,
     preprocess E self = Ok out ->
     exists tokens,
       word_tokenize E (lower E (body_text self)) = Ok tokens /\
       Forall2 (fun token lemma => lemmatize E token = Ok lemma)
         (filter (keep_token E) tokens) out) /\
  (forall tokens token,
     count_occ str_eq_dec (filter (keep_token E) tokens) token =
     if keep_token E token then count_occ str_eq_dec tokens token else 0) /\
  (forall tokens1 tokens2,
     lemmatize_kept E (tokens1 ++ tokens2) =
     (out1 <- lemmatize_kept E tokens1 ;;
      out2 <- lemmatize_kept E tokens2 ;;
      Ok (out1 ++ out2))%py).
Proof.
  assert (Heq : preprocess E self =
    (tokens <- word_tokenize E (lower E (body_text self)) ;;
     mapM (lemmatize E) (filter (keep_token E) tokens))%py).
  { unfold preprocess.
    destruct (word_tokenize E (lower E (body_text self))); simpl;
      [apply lemmatize_kept_filter|reflexivity]. }
  split; [exact Heq|]. split; [exact keep_token_iff|].
  split; [|split].
  - intros out H. rewrite Heq in H.
    destruct (word_tokenize E (lower E (body_text self))) as [tokens|e];
      simpl in H; [|discriminate].
    exists tokens. split; [reflexivity|]. apply mapM_Forall2. exact H.
  - intros tokens token. apply count_occ_filter.
  - exact lemmatize_kept_app.
Qed.

End Preprocess.

Lemma preprocess_filter_lemmatize_witness :
  preprocess Sample.libraries Sample.cat_document
  = Ok [lit "cat"; lit "cat"; lit "ran"] /\
  exists tokens,
    word_tokenize Sample.libraries
      (lower Sample.libraries (body_text Sample.cat_document)) = Ok tokens /\
    Forall2 (fun token lemma => lemmatize Sample.libraries token = Ok lemma)
      (filter (keep_token Sample.libraries) tokens)
      [lit "cat"; lit "cat"; lit "ran"].
Proof.
  assert (H : preprocess Sample.libraries Sample.cat_document
              = Ok [lit "cat"; lit "cat"; lit "ran"])
    by (vm_compute; reflexivity).
  split; [exact H|].
  destruct (preprocess_filter_lemmatize Sample.libraries Sample.cat_document)
    as (_ & _ & Hout & _).
  exact (Hout _ H).
Defined.

(** ** Counting tokens *)

Lemma in_firstn {A} (n : nat) (l : list A) (x : A) :
  In x (firstn n l) -> In x l.
Proof.
  intros H. rewrite <- (firstn_skipn n l). apply in_or_app. left. exact H.
Qed.

Section Sorting.

Context {A : Type}.
Variable R : A -> A -> Prop.

Lemma StronglySorted_snoc (l : list A) (x : A) :
  StronglySorted R l -> Forall (fun y => R y x) l ->
  StronglySorted R (l ++ [x]).
Proof.
  induction 1 as [|a l Hs IH Ha]; intros Hx; simpl.
  - repeat constructor.
  - inversion Hx; subst. constructor; [apply IH; assumption|].
    apply Forall_app. split; [assumption|]. repeat constructor. assumption.
Qed.

Lemma StronglySorted_firstn (n : nat) (l : list A) :
  StronglySorted R l -> StronglySorted R (firstn n l).
Proof.
  intros H. revert n. induction H as [|a l Hs IH Ha]; intros [|n]; simpl;
    try constructor.
  - apply IH.
  - apply Forall_forall. intros x Hx. apply in_firstn in Hx.
    rewrite Forall_forall in Ha. apply Ha. exact Hx.
Qed.

Lemma StronglySorted_split (n : nat) (l : list A) (a b : A) :
  StronglySorted R l -> In a (firstn n l) -> In b (skipn n l) -> R a b.
Proof.
  intros H. revert n. induction H as [|x l Hs IH Hx]; intros n Ha Hb.
  - rewrite firstn_nil in Ha. contradiction.
  - destruct n as [|n]; simpl in *; [contradiction|].
    destruct Ha as [<-|Ha].
    + rewrite Forall_forall in Hx. apply Hx.
      rewrite <- (firstn_skipn n l). apply in_or_app. right. exact Hb.
    + apply (IH n); assumption.
Qed.

End Sorting.

Lemma StronglySorted_map {A B} (f : A -> B) (R : B -> B -> Prop)
  (l : list A) :
  StronglySorted (fun a b => R (f a) (f b)) l <->
  StronglySorted R (map f l).
Proof.
  induction l as [|a l IH]; simpl.
  - split; constructor.
  - split; intros H; inversion H; subst; constructor.
    + apply IH. assumption.
    + apply Forall_map. assumption.
    + apply IH. assumption.
    + apply Forall_map. assumption.
Qed.

Lemma first_index_in (w : str) (l l' : list str) :
  In w l -> first_index w (l ++ l') = first_index w l /\
            first_index w l < List.length l.
Proof.
  induction l as [|t l IH]; intros H; simpl in *; [contradiction|].
  destruct (str_eq_dec t w) as [->|Hne]; [lia|].
  destruct H as [H|H]; [contradiction|].
  destruct (IH H). lia.
Qed.

Lemma first_index_notin (w : str) (l l' : list str) :
  ~ In w l ->
  first_index w (l ++ l') = List.length l + first_index w l'.
Proof.
  induction l as [|t l IH]; intros H; simpl in *; [reflexivity|].
  destruct (str_eq_dec t w) as [->|Hne]; [tauto|].
  rewrite IH; tauto.
Qed.

Lemma Counter_snoc (l : list str) (w : str) :
  Counter (l ++ [w]) = counter_incr w (Counter l).
Proof. unfold Counter. rewrite fold_left_app. reflexivity. Qed.

Lemma lookup_incr (w k : str) (c : counter) :
  lookup k (counter_incr w c) =
  if str_eq_dec w k
  then Some (S (match lookup k c with Some n => n | None => 0 end))
  else lookup k c.
Proof.
  induction c as [|[k' n] c IH]; simpl.
  - destruct (str_eq_dec w k); reflexivity.
  - destruct (str_eq_dec k' w) as [->|Hne]; simpl.
    + destruct (str_eq_dec w k); reflexivity.
    + destruct (str_eq_dec k' k) as [->|Hne'].
      * destruct (str_eq_dec w k); [congruence|reflexivity].
      * exact IH.
Qed.

Lemma keys_incr (w : str) (c : counter) :
  keys (counter_incr w c) =
  if in_dec str_eq_dec w (keys c) then keys c else keys c ++ [w].
Proof.
  unfold keys. induction c as [|[k n] c IH]; simpl; [reflexivity|].
  destruct (str_eq_dec k w) as [->|Hne]; simpl; [reflexivity|].
  rewrite IH. destruct (in_dec str_eq_dec w (map fst c)); reflexivity.
Qed.

Lemma total_incr (w : str) (c : counter) :
  total (counter_incr w c) = S (total c).
Proof.
  unfold total. induction c as [|[k n] c IH]; simpl; [reflexivity|].
  destruct (str_eq_dec k w); simpl; [reflexivity|]. rewrite IH. lia.
Qed.

(** The value of a key is the number of its occurrences; a token that does
    not occur is no key. *)
Lemma lookup_Counter (tokens : list str) (k : str) :
  lookup k (Counter tokens) =
  match count_occ str_eq_dec tokens k with
  | 0 => None
  | n => Some n
  end.
Proof.
  induction tokens as [|w l IH] using rev_ind; [reflexivity|].
  rewrite Counter_snoc, lookup_incr, IH, count_occ_app. simpl.
  destruct (str_eq_dec w k).
  - rewrite Nat.add_1_r. destruct (count_occ str_eq_dec l k); reflexivity.
  - rewrite Nat.add_0_r. reflexivity.
Qed.

Lemma total_Counter (tokens : list str) :
  total (Counter tokens) = List.length tokens.
Proof.
  induction tokens as [|w l IH] using rev_ind; [reflexivity|].
  rewrite Counter_snoc, total_incr, IH, length_app. simpl. lia.
Qed.

Lemma keys_Counter_in (tokens : list str) (k : str) :
  In k (keys (Counter tokens)) <-> In k tokens.
Proof.
  induction tokens as [|w l IH] using rev_ind; [reflexivity|].
  rewrite Counter_snoc, keys_incr, in_app_iff. simpl.
  destruct (in_dec str_eq_dec w (keys (Counter l))) as [Hin|Hnin].
  - rewrite IH. split; [tauto|]. intros [H|[<-|[]]]; [assumption|].
    apply IH. exact Hin.
  - rewrite in_app_iff, IH. simpl. reflexivity.
Qed.

(** The keys are in the order in which the tokens are first met. *)
Lemma keys_Counter_sorted (tokens : list str) :
  StronglySorted
    (fun a b => first_index a tokens < first_index b tokens)
    (keys (Counter tokens)).
Proof.
  induction tokens as [|w l IH] using rev_ind; [constructor|].
  assert (Hold : StronglySorted
            (fun a b => first_index a (l ++ [w]) < first_index b (l ++ [w]))
            (keys (Counter l))).
  { revert IH. generalize (fun k => proj1 (keys_Counter_in l k)).
    generalize (keys (Counter l)). intros ks Hks.
    induction 1 as [|a ks' Hs IHs Ha]; constructor.
    - apply IHs. intros k Hk. apply Hks. right. exact Hk.
    - rewrite Forall_forall in *. intros b Hb.
      destruct (first_index_in a l [w] (Hks a (or_introl eq_refl))) as [-> _].
      destruct (first_index_in b l [w] (Hks b (or_intror Hb))) as [-> _].
      apply Ha. exact Hb. }
  rewrite Counter_snoc, keys_incr.
  destruct (in_dec str_eq_dec w (keys (Counter l))) as [Hin|Hnin];
    [exact Hold|].
  apply StronglySorted_snoc; [exact Hold|].
  apply Forall_forall. intros a Ha. apply (proj1 (keys_Counter_in l a)) in Ha.
  destruct (first_index_in a l [w] Ha) as [-> Hlt].
  rewrite first_index_notin by (rewrite <- keys_Counter_in; exact Hnin).
  lia.
Qed.

Lemma keys_Counter_NoDup (tokens : list str) : NoDup (keys (Counter tokens)).
Proof.
  pose proof (keys_Counter_sorted tokens) as H.
  induction H as [|a l Hs IH Ha]; constructor; [|exact IH].
  intros Hin. rewrite Forall_forall in Ha. specialize (Ha a Hin). lia.
Qed.

Lemma lookup_in (c : counter) (k : str) (n : nat) :
  NoDup (keys c) -> In (k, n) c -> lookup k c = Some n.
Proof.
  unfold keys. induction c as [|[k' n'] c IH]; simpl; intros Hnd Hin;
    [contradiction|].
  inversion Hnd as [|? ? Hnotin Hnd']; subst.
  destruct Hin as [Heq|Hin].
  - injection Heq as -> ->. destruct (str_eq_dec k k); congruence.
  - destruct (str_eq_dec k' k) as [->|Hne]; [|apply IH; assumption].
    exfalso. apply Hnotin. apply (in_map fst) in Hin. exact Hin.
Qed.

(** An item of the counter pairs a token with the number of its
    occurrences, which is not zero. *)
Lemma Counter_item (tokens : list str) (k : str) (n : nat) :
  In (k, n) (Counter tokens) ->
  n = count_occ str_eq_dec tokens k /\ 0 < n.
Proof.
  intros Hin.
  pose proof (lookup_in _ _ _ (keys_Counter_NoDup tokens) Hin) as H.
  rewrite lookup_Counter in H.
  destruct (count_occ str_eq_dec tokens k); [discriminate|].
  injection H as <-. lia.
Qed.

(** ** The stable descending sort *)

Lemma insert_desc_perm (x : str * nat) (l : counter) :
  Permutation (insert_desc x l) (x :: l).
Proof.
  induction l as [|y l IH]; simpl; [reflexivity|].
  destruct (snd y <=? snd x); [reflexivity|].
  rewrite IH. apply perm_swap.
Qed.

Lemma sorted_desc_perm (c : counter) : Permutation (sorted_desc c) c.
Proof.
  induction c as [|x c IH]; simpl; [reflexivity|].
  rewrite insert_desc_perm, IH. reflexivity.
Qed.

Section Stable.

(** The order of the items before the sort. *)
Variable before : str * nat -> str * nat -> Prop.

Lemma insert_desc_sorted (x : str * nat) (l : counter) :
  StronglySorted (by_count_then before) l -> Forall (before x) l ->
  StronglySorted (by_count_then before) (insert_desc x l).
Proof.
  induction 1 as [|y l Hs IH Hy]; intros Hx; simpl.
  - repeat constructor.
  - inversion Hx as [|? ? Hxy Hxl]; subst.
    destruct (snd y <=? snd x) eqn:Hle.
    + apply Nat.leb_le in Hle. constructor; [constructor; assumption|].
      constructor.
      * unfold by_count_then.
        destruct (Nat.eq_dec (snd y) (snd x)); [right|left];
          [split; [congruence|assumption]|lia].
      * rewrite Forall_forall in *. intros z Hz.
        specialize (Hy z Hz). specialize (Hxl z Hz). unfold by_count_then in *.
        destruct (Nat.eq_dec (snd z) (snd x)); [right|left];
          [split; [congruence|assumption]|lia].
    + apply Nat.leb_gt in Hle. constructor; [apply IH; assumption|].
      apply (Permutation_Forall (x := x :: l)).
      * symmetry. apply insert_desc_perm.
      * constructor; [left; exact Hle|assumption].
Qed.

(** Items come out by descending count, and items of equal count in the
    order they went in. *)
Lemma sorted_desc_sorted (c : counter) :
  StronglySorted before c ->
  StronglySorted (by_count_then before) (sorted_desc c).
Proof.
  induction 1 as [|x c Hs IH Hx]; simpl; [constructor|].
  apply insert_desc_sorted; [exact IH|].
  apply (Permutation_Forall (x := c)); [|exact Hx].
  symmetry. apply sorted_desc_perm.
Qed.

End Stable.

(** ** The frequency analysis *)

Lemma mapM_map {A B} (f : A -> result B) (g : A -> B) (l : list A) :
  (forall a, In a l -> f a = Ok (g a)) -> mapM f l = Ok (map g l).
Proof.
  induction l as [|a l IH]; intros H; simpl; [reflexivity|].
  rewrite (H a (or_introl eq_refl)), IH; [reflexivity|].
  intros b Hb. apply H. right. exact Hb.
Qed.

Lemma ratio_or_zero_pos (a b : nat) :
  0 < b -> ratio_or_zero a b = Ok (Z.of_nat a # Pos.of_nat b)%Q.
Proof.
  intros H. unfold ratio_or_zero, truediv.
  destruct b; [lia|]. reflexivity.
Qed.

Lemma count_occ_length (l : list str) (k : str) :
  count_occ str_eq_dec l k <= List.length l.
Proof.
  induction l as [|a l IH]; simpl; [lia|].
  destruct (str_eq_dec a k); lia.
Qed.

Lemma most_common_item (n : nat) (tokens : list str) (wc : str * nat) :
  In wc (most_common n (Counter tokens)) -> In wc (Counter tokens).
Proof.
  intros H. apply in_firstn in H.
  apply (Permutation_in _ (sorted_desc_perm (Counter tokens))). exact H.
Qed.

Lemma build_bag_of_words_eq (tokens : list str) :
  build_bag_of_words tokens =
  Ok (map (entry_of tokens) (most_common 50 (Counter tokens)),
      Counter tokens).
Proof.
  unfold build_bag_of_words.
  rewrite mapM_map with (g := entry_of tokens); [reflexivity|].
  intros [w c] Hin. apply most_common_item in Hin.
  apply Counter_item in Hin. destruct Hin as [Hc Hpos].
  rewrite ratio_or_zero_pos; [reflexivity|].
  pose proof (count_occ_length tokens w). lia.
Qed.

Lemma Counter_sorted_by_first_index (tokens : list str) :
  StronglySorted
    (fun a b : str * nat =>
       first_index (fst a) tokens < first_index (fst b) tokens)
    (Counter tokens).
Proof.
  apply (StronglySorted_map fst
           (fun a b => first_index a tokens < first_index b tokens)).
  apply keys_Counter_sorted.
Qed.

Lemma most_common_sorted (n : nat) (tokens : list str) :
  StronglySorted (ranks_before tokens)
    (map (entry_of tokens) (most_common n (Counter tokens))).
Proof.
  apply (proj1 (StronglySorted_map (entry_of tokens) (ranks_before tokens) _)).
  unfold most_common. apply StronglySorted_firstn.
  exact (sorted_desc_sorted _ _ (Counter_sorted_by_first_index tokens)).
Qed.

Lemma entry_frequency (tokens : list str) (wc : str * nat) :
  0 < List.length tokens ->
  (frequency (entry_of tokens wc) ==
   inject_Z (Z.of_nat (snd wc)) / inject_Z (Z.of_nat (List.length tokens)))%Q.
Proof.
  intros H. unfold entry_of. simpl. rewrite Qmake_Qdiv.
  destruct (List.length tokens) as [|n]; [lia|].
  rewrite <- positive_nat_Z, Nat2Pos.id by discriminate. reflexivity.
Qed.

(** C4. [build_bag_of_words] returns, for every token sequence: as
    [word_frequencies], a mapping (no key twice) that gives each token of
    the sequence the number of its occurrences and has no other key, the
    values summing to the length of the sequence; as [top_words], at most
    50 entries (all of them when there are fewer distinct tokens), ordered
    by descending count and, among equal counts, by first occurrence in the
    sequence; each entry carries the count of its word and that count
    divided by the number of tokens; a token left out has a count no higher
    than any entry's; the frequency expression is 0 on an empty sequence,
    for which there is no entry. *)
Theorem build_bag_of_words_counts (tokens : list str) :
  exists top_words word_frequencies,
    build_bag_of_words tokens = Ok (top_words, word_frequencies) /\
    NoDup (keys word_frequencies) /\
    (forall w,
       lookup w word_frequencies =
       match count_occ str_eq_dec tokens w with
       | 0 => None
       | n => Some n
       end) /\
    total word_frequencies = List.length tokens /\
    List.length top_words = Nat.min 50 (List.length word_frequencies) /\
    List.length top_words <= 50 /\
    StronglySorted (ranks_before tokens) top_words /\
    (forall e,
       In e top_words ->
       count e = count_occ str_eq_dec tokens (word e) /\
       0 < count e /\
       ratio_or_zero (count e) (List.length tokens) = Ok (frequency e) /\
       (frequency e ==
        inject_Z (Z.of_nat (count e))
        / inject_Z (Z.of_nat (List.length tokens)))%Q) /\
    (forall w n,
       In (w, n) word_frequencies ->
       (exists e, In e top_words /\ word e = w /\ count e = n) \/
       (forall e, In e top_words -> n <= count e)) /\
    (forall c, ratio_or_zero c 0 = Ok 0%Q) /\
    (tokens = [] -> top_words = []).
Proof.
  exists (map (entry_of tokens) (most_common 50 (Counter tokens))),
         (Counter tokens).
  split; [apply build_bag_of_words_eq|].
  split; [apply keys_Counter_NoDup|].
  split; [intros w; apply lookup_Counter|].
  split; [apply total_Counter|].
  split.
  { rewrite length_map. unfold most_common. rewrite length_firstn.
    rewrite (Permutation_length (sorted_desc_perm (Counter tokens))).
    reflexivity. }
  split.
  { rewrite length_map. unfold most_common. apply firstn_le_length. }
  split; [apply most_common_sorted|].
  split.
  { intros e He. apply in_map_iff in He. destruct He as ([w c] & <- & Hin).
    apply most_common_item in Hin. apply Counter_item in Hin.
    destruct Hin as [Hc Hpos]. simpl.
    assert (Hlen : 0 < List.length tokens)
      by (pose proof (count_occ_length tokens w); lia).
    split; [exact Hc|]. split; [exact Hpos|].
    split; [apply ratio_or_zero_pos; exact Hlen|].
    apply (entry_frequency tokens (w, c) Hlen). }
  split.
  { intros w n Hin.
    apply (Permutation_in _ (Permutation_sym (sorted_desc_perm _))) in Hin.
    rewrite <- (firstn_skipn 50 (sorted_desc (Counter tokens))) in Hin.
    apply in_app_or in Hin. destruct Hin as [Hin|Hin].
    - left. exists (entry_of tokens (w, n)). split; [|split; reflexivity].
      apply in_map. exact Hin.
    - right. intros e He. apply in_map_iff in He.
      destruct He as (a & <- & Ha). simpl.
      pose proof (StronglySorted_split _ 50 _ a (w, n)
                    (sorted_desc_sorted _ _
                       (Counter_sorted_by_first_index tokens)) Ha Hin) as Hr.
      unfold by_count_then in Hr. simpl in Hr. lia. }
  split; [reflexivity|].
  intros ->. reflexivity.
Qed.

Lemma build_bag_of_words_counts_witness :
  exists top_words word_frequencies,
    build_bag_of_words [lit "cat"; lit "ran"; lit "cat"; lit "sat"]
    = Ok (top_words, word_frequencies) /\
    map word top_words = [lit "cat"; lit "ran"; lit "sat"] /\
    forall e, In e top_words ->
      count e = count_occ str_eq_dec
                  [lit "cat"; lit "ran"; lit "cat"; lit "sat"] (word e).
Proof.
  destruct (build_bag_of_words_counts
              [lit "cat"; lit "ran"; lit "cat"; lit "sat"])
    as (top_words & word_frequencies & Heq & _ & _ & _ & _ & _ & _ & He & _).
  exists top_words, word_frequencies.
  split; [exact Heq|]. split.
  - vm_compute in Heq. injection Heq as <- _. reflexivity.
  - intros e Hin. apply (He e Hin).
Defined.

(** ** Rounding *)

Lemma round_nearest_bounds (up : bool) (n m : Z) (d : positive) :
  (0 <= n)%Z -> (n <= m * Zpos d)%Z ->
  (0 <= round_nearest up (n # d) <= m)%Z.
Proof.
  intros Hn Hm. unfold round_nearest. cbn [Qnum Qden].
  pose proof (Z.div_mod n (Zpos d) ltac:(lia)) as Hdm.
  pose proof (Z.mod_pos_bound n (Zpos d) ltac:(lia)) as Hr.
  pose proof (Z.div_pos n (Zpos d) Hn ltac:(lia)) as Hf.
  set (f := (n / Zpos d)%Z) in *. set (r := (n mod Zpos d)%Z) in *.
  clearbody f r.
  assert (Hfm : (f <= m)%Z) by nia.
  assert (Hlt : (f = m -> r = 0)%Z) by nia.
  destruct (2 * r ?= Zpos d)%Z eqn:Hc.
  - apply Z.compare_eq in Hc.
    destruct up; [|lia]. destruct (Z.eq_dec f m) as [e|e]; [|lia].
    specialize (Hlt e). lia.
  - lia.
  - apply Z.compare_gt_iff in Hc.
    destruct (Z.eq_dec f m) as [e|e]; [|lia].
    specialize (Hlt e). lia.
Qed.

(** The rounded value is within half a unit of the value. *)
Lemma round_nearest_error (up : bool) (n : Z) (d : positive) :
  (2 * Z.abs (round_nearest up (n # d) * Zpos d - n) <= Zpos d)%Z.
Proof.
  unfold round_nearest. cbn [Qnum Qden].
  pose proof (Z.div_mod n (Zpos d) ltac:(lia)) as Hdm.
  pose proof (Z.mod_pos_bound n (Zpos d) ltac:(lia)) as Hr.
  set (f := (n / Zpos d)%Z) in *. set (r := (n mod Zpos d)%Z) in *.
  clearbody f r.
  assert (E0 : (f * Zpos d - n = - r)%Z) by (rewrite Hdm; ring).
  assert (E1 : ((f + 1) * Zpos d - n = Zpos d - r)%Z) by (rewrite Hdm; ring).
  pose proof (Z.abs_spec (- r)) as A0.
  pose proof (Z.abs_spec (Zpos d - r)) as A1.
  destruct (2 * r ?= Zpos d)%Z eqn:Hc.
  - apply Z.compare_eq in Hc. destruct up; rewrite ?E0, ?E1; lia.
  - change (2 * r < Zpos d)%Z in Hc. rewrite E0. lia.
  - apply Z.compare_gt_iff in Hc. rewrite E1. lia.
Qed.

(** Rounding to 4 places keeps a value of [0, 1] in [0, 1] and moves it by
    at most 0.00005, whichever way ties go. *)
Lemma round4_unit (E : externals) (x : Q) :
  (0 <= x)%Q -> (x <= 1)%Q -> (0 <= round E x 4 <= 1)%Q.
Proof.
  destruct x as [n d]. intros H0 H1. unfold Qle in H0, H1.
  cbn [Qnum Qden] in H0, H1.
  unfold round. change (Pos.pow 10 (Pos.of_nat 4)) with 10000%positive.
  generalize (round_tie_up E ((n # d) * inject_Z 10000)). intros up.
  assert (H : (0 <= round_nearest up ((n # d) * inject_Z 10000) <= 10000)%Z).
  { unfold Qmult, inject_Z. cbn [Qnum Qden].
    apply round_nearest_bounds; lia. }
  unfold Qle. cbn [Qnum Qden]. lia.
Qed.

Lemma round4_error (E : externals) (x : Q) :
  (Qabs (round E x 4 - x) <= 5 # 100000)%Q.
Proof.
  destruct x as [n d].
  unfold round. change (Pos.pow 10 (Pos.of_nat 4)) with 10000%positive.
  generalize (round_tie_up E ((n # d) * inject_Z 10000)). intros up.
  pose proof (round_nearest_error up (n * 10000) (d * 1)) as H.
  unfold Qmult, inject_Z. cbn [Qnum Qden].
  set (z := round_nearest up (n * 10000 # d * 1)) in *. clearbody z.
  unfold Qminus, Qplus, Qopp, Qabs, Qle. cbn [Qnum Qden].
  rewrite Pos.mul_1_r in H.
  pose proof (Z.abs_spec (z * Zpos d - n * 10000)) as A.
  pose proof (Z.abs_spec (z * Zpos d + - n * 10000)) as B.
  lia.
Qed.

Lemma ratio_unit (a b : nat) : a <= b -> (0 <= ratio a b <= 1)%Q.
Proof.
  intros H. unfold ratio. destruct b as [|b].
  - split; discriminate.
  - unfold Qle. cbn [Qnum Qden].
    assert (Hb : Zpos (Pos.of_nat (S b)) = Z.of_nat (S b))
      by (rewrite <- positive_nat_Z, Nat2Pos.id by discriminate; reflexivity).
    rewrite Hb. lia.
Qed.

Lemma ratio_or_zero_ratio (a b : nat) : ratio_or_zero a b = Ok (ratio a b).
Proof. destruct b; reflexivity. Qed.

Lemma distinct_le_length (l : list str) : distinct l <= List.length l.
Proof.
  unfold distinct. induction l as [|a l IH]; simpl; [lia|].
  destruct (in_dec str_eq_dec a l); simpl; lia.
Qed.

(** ** The style record *)

Section Style.

Variable E : externals.
Variable self : ProjectGutenbergText.

(** C7, as the code has it. When the two tokenizers return,
    [analyze_style] returns a record in which [type_token_ratio] is the
    number of distinct filtered tokens divided by the number of filtered
    tokens (0 for no token) rounded to 4 decimal places, and
    [vocabulary_richness] is the same quotient over the alphabetic tokens
    of the lowercased body, rounded to 4 decimal places; both lie in
    [0, 1], are within 0.00005 of the quotient, and are 0 when there is no
    token to count, as for an empty body, which has no token once the
    tokenizer finds none in the empty text. *)
Theorem analyze_style_ratios (tokens all_tokens sentences : list str) :
  word_tokenize E (lower E (body_text self)) = Ok all_tokens ->
  sent_tokenize E (body_text self) = Ok sentences ->
  exists s,
    analyze_style E self tokens = Ok s /\
    let all_words := filter (isalpha E) all_tokens in
    let ttr := ratio (distinct tokens) (List.length tokens) in
    let richness := ratio (distinct all_words) (List.length all_words) in
    type_token_ratio s = round E ttr 4 /\
    vocabulary_richness s = round E richness 4 /\
    (0 <= type_token_ratio s <= 1)%Q /\
    (0 <= vocabulary_richness s <= 1)%Q /\
    (Qabs (type_token_ratio s - ttr) <= 5 # 100000)%Q /\
    (Qabs (vocabulary_richness s - richness) <= 5 # 100000)%Q /\
    (tokens = [] -> (type_token_ratio s == 0)%Q) /\
    (all_tokens = [] -> (vocabulary_richness s == 0)%Q) /\
    (body_text self = [] -> lower E [] = [] -> word_tokenize E [] = Ok [] ->
     preprocess E self = Ok [] /\ (vocabulary_richness s == 0)%Q).
Proof.
  intros Hw Hs. unfold analyze_style. rewrite Hw, Hs. simpl rbind.
  rewrite !ratio_or_zero_ratio. simpl rbind.
  set (all_words := filter (isalpha E) all_tokens).
  assert (Havg : exists q,
            match sentences with
            | [] => Ok 0%Q
            | _ :: _ => truediv (List.length all_words) (List.length sentences)
            end = Ok q).
  { destruct sentences; simpl; eexists; reflexivity. }
  destruct Havg as [q ->]. simpl rbind.
  eexists. split; [reflexivity|]. cbn [type_token_ratio vocabulary_richness].
  pose proof (ratio_unit _ _ (distinct_le_length tokens)) as [Ht0 Ht1].
  pose proof (ratio_unit _ _ (distinct_le_length all_words)) as [Hr0 Hr1].
  split; [reflexivity|]. split; [reflexivity|].
  split; [apply round4_unit; assumption|].
  split; [apply round4_unit; assumption|].
  split; [apply round4_error|]. split; [apply round4_error|].
  split; [intros ->; reflexivity|].
  split.
  - intros Ha. subst all_words. rewrite Ha. reflexivity.
  - intros Hb Hl He. rewrite Hb, Hl, He in Hw. injection Hw as <-.
    split; [|reflexivity].
    unfold preprocess. rewrite Hb, Hl, He. reflexivity.
Qed.

End Style.

Lemma analyze_style_ratios_witness :
  exists s,
    analyze_style Sample.libraries Sample.cat_document
      [lit "cat"; lit "cat"; lit "ran"] = Ok s /\
    type_token_ratio s = (6667 # 10000)%Q /\
    vocabulary_richness s = (6000 # 10000)%Q.
Proof.
  destruct (analyze_style_ratios Sample.libraries Sample.cat_document
              [lit "cat"; lit "cat"; lit "ran"]
              [lit "the"; lit "cat"; lit "sat."; lit "the"; lit "cat";
               lit "ran"; lit "fast."]
              [lit "The cat sat."; lit "The cat ran fast."]
              eq_refl eq_refl)
    as (s & Hs & Ht & Hr & _).
  exists s. split; [exact Hs|]. split.
  - rewrite Ht. vm_compute. reflexivity.
  - rewrite Hr. vm_compute. reflexivity.
Defined.

(** C7, as the specification has it, fails: for the tokens cat, cat, ran the
    quotient is 2/3 and the record holds 0.6667. *)
Lemma type_token_ratio_not_the_quotient :
  exists s,
    analyze_style Sample.libraries Sample.cat_document
      [lit "cat"; lit "cat"; lit "ran"] = Ok s /\
    distinct [lit "cat"; lit "cat"; lit "ran"] = 2 /\
    List.length [lit "cat"; lit "cat"; lit "ran"] = 3 /\
    ~ (type_token_ratio s == 2 # 3)%Q.
Proof.
  eexists. split; [vm_compute; reflexivity|].
  split; [reflexivity|]. split; [reflexivity|].
  vm_compute. discriminate.
Qed.

(** ** Topic extraction *)

Section Topics.

Variable E : externals.
Variable self : ProjectGutenbergText.

(** Whatever is raised between the call of the vectorizer and the last
    topic record is caught: a warning is printed and the list is empty. *)
Lemma try_except_returns (m : M (list topic_info)) :
  exists trace topics,
    try_except m
      (fun e => (emit (Printed (warning self e)) ;;; ret [])%py)
    = (trace, Ok topics).
Proof.
  destruct m as [t [a|e]]; simpl; eexists; eexists; reflexivity.
Qed.

(** C6. Once the body is split into sentences, [extract_topics] returns
    and never raises.  With fewer sentences than [n_topics] (one fewer
    included) it returns the empty list and neither calls the vectorizer
    nor prints; with [n_topics] sentences or more (exactly as many
    included) it calls the vectorizer on the sentences; when the
    vectorizer, the topic model or the reading of the fitted topics raises,
    the exception is caught, a warning with its message is printed and the
    result is the empty list. *)
Theorem extract_topics_never_fatal (n_topics n_words : Z)
  (sentences : list str) :
  sent_tokenize E (body_text self) = Ok sentences ->
  (exists trace topics,
     extract_topics E self n_topics n_words = (trace, Ok topics)) /\
  ((len sentences < n_topics)%Z ->
   extract_topics E self n_topics n_words = ([], Ok [])) /\
  (len sentences = (n_topics - 1)%Z ->
   extract_topics E self n_topics n_words = ([], Ok [])) /\
  ((n_topics <= len sentences)%Z ->
   exists trace r,
     extract_topics E self n_topics n_words
     = (CallFitTransform sentences :: trace, r)) /\
  (len sentences = n_topics ->
   exists trace r,
     extract_topics E self n_topics n_words
     = (CallFitTransform sentences :: trace, r)) /\
  ((n_topics <= len sentences)%Z ->
   forall e,
     fit_transform E sentences = Raise e ->
     extract_topics E self n_topics n_words
     = ([CallFitTransform sentences; Printed (warning self e)], Ok [])) /\
  ((n_topics <= len sentences)%Z ->
   forall v e,
     fit_transform E sentences = Ok v ->
     lda_components E n_topics v = Raise e ->
     extract_topics E self n_topics n_words
     = ([CallFitTransform sentences; CallLdaFit n_topics;
         Printed (warning self e)], Ok [])) /\
  ((n_topics <= len sentences)%Z ->
   forall v components e,
     fit_transform E sentences = Ok v ->
     lda_components E n_topics v = Ok components ->
     topic_records E (feature_names v) n_words 0 components = Raise e ->
     extract_topics E self n_topics n_words
     = ([CallFitTransform sentences; CallLdaFit n_topics;
         Printed (warning self e)], Ok [])).
Proof.
  intros Hs.
  assert (Hfew : (len sentences < n_topics)%Z ->
                 extract_topics E self n_topics n_words = ([], Ok [])).
  { intros H. unfold extract_topics. rewrite Hs. simpl.
    apply Z.ltb_lt in H. rewrite H. reflexivity. }
  assert (Hfit : (n_topics <= len sentences)%Z ->
            extract_topics E self n_topics n_words =
            try_except
              (emit (CallFitTransform sentences) ;;;
               v <~ lift (fit_transform E sentences) ;;
               emit (CallLdaFit n_topics) ;;;
               components <~ lift (lda_components E n_topics v) ;;
               lift (topic_records E (feature_names v) n_words 0
                       components))%py
              (fun e => (emit (Printed (warning self e)) ;;; ret [])%py)).
  { intros H. unfold extract_topics. rewrite Hs. simpl bind.
    apply Z.ltb_ge in H. rewrite H.
    destruct (try_except _ _). reflexivity. }
  assert (Hcall : (n_topics <= len sentences)%Z ->
            exists trace r,
              extract_topics E self n_topics n_words
              = (CallFitTransform sentences :: trace, r)).
  { intros H. rewrite (Hfit H). simpl.
    destruct (fit_transform E sentences) as [v|e]; simpl;
      [|eexists; eexists; reflexivity].
    destruct (lda_components E n_topics v) as [c|e]; simpl;
      [|eexists; eexists; reflexivity].
    destruct (topic_records E (feature_names v) n_words 0 c); simpl;
      eexists; eexists; reflexivity. }
  split.
  { destruct (Z.lt_ge_cases (len sentences) n_topics) as [H|H].
    - rewrite (Hfew H). eexists; eexists; reflexivity.
    - rewrite (Hfit H). apply try_except_returns. }
  split; [exact Hfew|]. split; [intros H; apply Hfew; lia|].
  split; [exact Hcall|]. split; [intros H; apply Hcall; lia|].
  split; [|split].
  - intros H e He. rewrite (Hfit H). simpl. rewrite He. reflexivity.
  - intros H v e Hv He. rewrite (Hfit H). simpl. rewrite Hv. simpl.
    rewrite He. reflexivity.
  - intros H v c e Hv Hc He. rewrite (Hfit H). simpl. rewrite Hv. simpl.
    rewrite Hc. simpl. rewrite He. reflexivity.
Qed.

End Topics.

Lemma extract_topics_never_fatal_witness :
  extract_topics Sample.failing Sample.cat_document 3 8 = ([], Ok []) /\
  extract_topics Sample.failing Sample.cat_document 2 8
  = ([CallFitTransform [lit "The cat sat."; lit "The cat ran fast."];
      Printed (warning Sample.cat_document
               (Exception (lit "empty vocabulary")))],
     Ok []).
Proof.
  destruct (extract_topics_never_fatal Sample.failing Sample.cat_document
              3 8 [lit "The cat sat."; lit "The cat ran fast."] eq_refl)
    as (_ & Hfew & _).
  destruct (extract_topics_never_fatal Sample.failing Sample.cat_document
              2 8 [lit "The cat sat."; lit "The cat ran fast."] eq_refl)
    as (_ & _ & _ & _ & _ & Hraise & _).
  split.
  - apply Hfew. vm_compute. reflexivity.
  - apply Hraise; [vm_compute; discriminate|reflexivity].
Defined.

(** ** The topic records *)

Lemma StronglySorted_rev {A} (R : A -> A -> Prop) (l : list A) :
  StronglySorted R l -> StronglySorted (fun a b => R b a) (rev l).
Proof.
  induction 1 as [|a l Hs IH Ha]; simpl; [constructor|].
  apply StronglySorted_snoc; [exact IH|].
  apply Forall_rev. exact Ha.
Qed.

Lemma slice_from_negative {A} (l : list A) (n : Z) :
  (1 <= n)%Z ->
  slice_from l (- n) = skipn (List.length l - Z.to_nat n) l.
Proof.
  intros H. unfold slice_from, clip, len.
  destruct (- n <? 0)%Z eqn:Hn; [|apply Z.ltb_ge in Hn; lia].
  f_equal. lia.
Qed.

(** [l[-0:]] is the whole of [l]. *)
Lemma slice_from_minus_zero {A} (l : list A) : slice_from l (- 0) = l.
Proof.
  unfold slice_from, clip, len. simpl. rewrite Z.min_l by lia. reflexivity.
Qed.

Lemma mapM_index {A} (d : A) (l : list A) (idxs : list nat) :
  Forall (fun i => i < List.length l) idxs ->
  mapM (index l) idxs = Ok (map (fun i => nth i l d) idxs).
Proof.
  intros H. apply mapM_map. intros i Hi.
  rewrite Forall_forall in H. specialize (H i Hi).
  unfold index. rewrite (nth_error_nth' l d H). reflexivity.
Qed.

Section TopicRecords.

Variable E : externals.

Lemma top_indices_slice (n_words : Z) (topic : list Q) :
  (1 <= n_words)%Z ->
  rev (slice_from (argsort E topic) (- n_words))
  = top_indices E (Z.to_nat n_words) topic.
Proof.
  intros H. rewrite slice_from_negative by exact H.
  unfold top_indices. rewrite firstn_rev. reflexivity.
Qed.

Lemma top_indices_in (n : nat) (topic : list Q) (i : nat) :
  argsort_ascending E topic ->
  In i (top_indices E n topic) -> i < List.length topic.
Proof.
  intros [Hp _] Hi. apply in_firstn in Hi. apply in_rev in Hi.
  apply (Permutation_in _ Hp) in Hi. apply in_seq in Hi. lia.
Qed.

Lemma top_indices_length (n : nat) (topic : list Q) :
  argsort_ascending E topic ->
  List.length (top_indices E n topic) = Nat.min n (List.length topic).
Proof.
  intros [Hp _]. unfold top_indices.
  rewrite length_firstn, length_rev, (Permutation_length Hp), length_seq.
  reflexivity.
Qed.

Lemma top_indices_descending (n : nat) (topic : list Q) :
  argsort_ascending E topic ->
  StronglySorted (fun i j => (nth j topic 0 <= nth i topic 0)%Q)
    (top_indices E n topic).
Proof.
  intros [_ Hs]. unfold top_indices. apply StronglySorted_firstn.
  apply (StronglySorted_rev _ _ Hs).
Qed.

Lemma top_indices_NoDup (n : nat) (topic : list Q) :
  argsort_ascending E topic -> NoDup (top_indices E n topic).
Proof.
  intros [Hp _]. unfold top_indices.
  assert (Hnd : NoDup (rev (argsort E topic))).
  { apply (Permutation_NoDup (l := seq 0 (List.length topic))).
    - rewrite <- Hp. apply Permutation_rev.
    - apply seq_NoDup. }
  rewrite <- (firstn_skipn n (rev (argsort E topic))) in Hnd.
  apply NoDup_app_remove_r in Hnd. exact Hnd.
Qed.

(** An index left out weighs no more than any index kept. *)
Lemma top_indices_highest (n : nat) (topic : list Q) (i j : nat) :
  argsort_ascending E topic ->
  In i (top_indices E n topic) -> j < List.length topic ->
  ~ In j (top_indices E n topic) ->
  (nth j topic 0 <= nth i topic 0)%Q.
Proof.
  intros [Hp Hs] Hi Hj Hnj.
  assert (Hin : In j (rev (argsort E topic))).
  { apply in_rev. rewrite rev_involutive.
    apply (Permutation_in _ (Permutation_sym Hp)). apply in_seq. lia. }
  rewrite <- (firstn_skipn n (rev (argsort E topic))) in Hin.
  apply in_app_or in Hin. destruct Hin as [Hin|Hin]; [contradiction|].
  exact (StronglySorted_split _ n _ i j (StronglySorted_rev _ _ Hs) Hi Hin).
Qed.

(** The first index kept is one of the highest weight. *)
Lemma top_indices_head (n : nat) (topic : list Q) (j : nat) :
  argsort_ascending E topic -> 0 < n ->
  j < List.length topic ->
  (nth j topic 0 <= nth (hd 0%nat (top_indices E n topic)) topic 0)%Q.
Proof.
  intros Ha Hn Hj.
  pose proof (top_indices_length n topic Ha) as Hlen.
  pose proof (top_indices_descending n topic Ha) as Hd.
  destruct (top_indices E n topic) as [|i0 rest] eqn:Ht;
    [simpl in Hlen; lia|].
  simpl. destruct (Nat.eq_dec j i0) as [->|Hne]; [apply Qle_refl|].
  inversion Hd as [|? ? _ Hall]; subst.
  destruct (in_dec Nat.eq_dec j rest) as [Hin|Hnin].
  - rewrite Forall_forall in Hall. apply Hall. exact Hin.
  - apply (top_indices_highest n topic i0 j Ha); [rewrite Ht; left; reflexivity
                                                 |exact Hj|].
    rewrite Ht. intros [H|H]; [congruence|contradiction].
Qed.

End TopicRecords.

Section Records.

Variable E : externals.
Variable names : list str.
Variable n_words : Z.
Hypothesis n_words_positive : (1 <= n_words)%Z.
Hypothesis names_not_empty : 0 < List.length names.

Lemma topic_record_ok (topic_idx : nat) (topic : list Q) :
  argsort_ascending E topic ->
  List.length topic = List.length names ->
  topic_record E names n_words topic_idx topic
  = Ok (topic_of E names (Z.to_nat n_words) topic_idx topic).
Proof.
  intros Ha Hlen. unfold topic_record, topic_of.
  rewrite top_indices_slice by exact n_words_positive.
  pose proof (top_indices_length E (Z.to_nat n_words) topic Ha) as Hl.
  assert (Hin : Forall (fun i => i < List.length names)
                  (top_indices E (Z.to_nat n_words) topic)).
  { apply Forall_forall. intros i Hi. rewrite <- Hlen.
    exact (top_indices_in E _ _ _ Ha Hi). }
  rewrite (mapM_index ([] : str) names _ Hin). simpl rbind.
  destruct (top_indices E (Z.to_nat n_words) topic) as [|i0 rest] eqn:Ht.
  - simpl in Hl. lia.
  - simpl. inversion Hin as [|? ? Hi0 _]; subst.
    unfold index. rewrite <- Hlen in Hi0.
    rewrite (nth_error_nth' topic 0%Q Hi0). reflexivity.
Qed.

Lemma topic_records_ok (components : list (list Q)) (topic_idx : nat) :
  Forall (fun topic => argsort_ascending E topic /\
                       List.length topic = List.length names) components ->
  topic_records E names n_words topic_idx components
  = Ok (map (fun p => topic_of E names (Z.to_nat n_words) (fst p) (snd p))
          (combine (seq topic_idx (List.length components)) components)).
Proof.
  intros H. revert topic_idx.
  induction H as [|t rest [Ha Hl] Hrest IH]; intros topic_idx; simpl;
    [reflexivity|].
  rewrite (topic_record_ok _ _ Ha Hl), IH. reflexivity.
Qed.

End Records.

Lemma nth_error_combine_seq {A} (l : list A) (start k : nat) (a : A) :
  nth_error l k = Some a ->
  nth_error (combine (seq start (List.length l)) l) k = Some (start + k, a).
Proof.
  revert start k. induction l as [|x l IH]; intros start [|k] H; simpl in *;
    try discriminate.
  - injection H as ->. rewrite Nat.add_0_r. reflexivity.
  - rewrite (IH (S start) k H). f_equal. f_equal. lia.
Qed.

Lemma map_fst_combine_seq {A} (l : list A) (start : nat) :
  map fst (combine (seq start (List.length l)) l)
  = seq start (List.length l).
Proof.
  revert start. induction l as [|x l IH]; intros start; simpl;
    [reflexivity|].
  rewrite IH. reflexivity.
Qed.

Section TopicList.

Variable E : externals.
Variable self : ProjectGutenbergText.

(** C10, for one word or more per topic. Let the body have at least
    [n_topics] sentences, the vectorizer return a vocabulary that is not
    empty and the topic model return [n_topics] topics over it, each
    ordered by [argsort]. Then [extract_topics] returns [n_topics] records
    numbered 1, 2, ... in list order; the words of a record are the
    vocabulary terms at the indices of its topic's highest weights, by
    descending weight, [min(n_words, vocabulary size)] of them, no index
    twice, and no term left out weighs more than a term listed; the
    record's weight is that of its first word and is the maximum of the
    topic. *)
Theorem extract_topics_records (n_topics n_words : Z)
  (sentences : list str) (v : vectorized) (components : list (list Q)) :
  sent_tokenize E (body_text self) = Ok sentences ->
  (n_topics <= len sentences)%Z ->
  fit_transform E sentences = Ok v ->
  lda_components E n_topics v = Ok components ->
  len components = n_topics ->
  0 < List.length (feature_names v) ->
  Forall (fun topic => argsort_ascending E topic /\
                       List.length topic = List.length (feature_names v))
    components ->
  (1 <= n_words)%Z ->
  exists topics,
    extract_topics E self n_topics n_words
    = ([CallFitTransform sentences; CallLdaFit n_topics], Ok topics) /\
    len topics = n_topics /\
    map topic_id topics
    = map (fun k => (Z.of_nat k + 1)%Z) (seq 0 (Z.to_nat n_topics)) /\
    forall k topic,
      nth_error components k = Some topic ->
      exists r idxs,
        nth_error topics k = Some r /\
        topic_id r = (Z.of_nat k + 1)%Z /\
        words r = map (fun i => nth i (feature_names v) []) idxs /\
        List.length (words r)
        = Nat.min (Z.to_nat n_words) (List.length (feature_names v)) /\
        NoDup idxs /\
        Forall (fun i => i < List.length (feature_names v)) idxs /\
        StronglySorted (fun i j => (nth j topic 0 <= nth i topic 0)%Q) idxs /\
        (forall i j,
           In i idxs -> j < List.length (feature_names v) -> ~ In j idxs ->
           (nth j topic 0 <= nth i topic 0)%Q) /\
        weight r = nth (hd 0 idxs) topic 0%Q /\
        (forall j, j < List.length (feature_names v) ->
                   (nth j topic 0 <= weight r)%Q).
Proof.
  intros Hs Hn Hv Hc Hlen Hvoc Hrows Hw.
  set (n := Z.to_nat n_words).
  set (names := feature_names v).
  exists (map (fun p => topic_of E names n (fst p) (snd p))
            (combine (seq 0 (List.length components)) components)).
  split.
  { pose proof (topic_records_ok E names n_words Hw Hvoc components 0 Hrows)
      as Hrec.
    unfold extract_topics, bind, lift, emit, try_except.
    apply Z.ltb_ge in Hn. rewrite Hs, Hn, Hv. cbv beta iota.
    rewrite Hc. cbv beta iota. fold names. rewrite Hrec. reflexivity. }
  assert (Hcount : List.length components = Z.to_nat n_topics)
    by (unfold len in Hlen; lia).
  split.
  { unfold len. rewrite length_map, length_combine, length_seq.
    unfold len in Hlen. lia. }
  split.
  { rewrite map_map. simpl.
    rewrite <- (map_map fst (fun k => (Z.of_nat k + 1)%Z)).
    rewrite map_fst_combine_seq, Hcount. reflexivity. }
  intros k topic Hk.
  assert (Hrow : argsort_ascending E topic /\
                 List.length topic = List.length names).
  { rewrite Forall_forall in Hrows. apply Hrows.
    exact (nth_error_In _ _ Hk). }
  destruct Hrow as [Ha Hl].
  exists (topic_of E names n k topic), (top_indices E n topic).
  split.
  { rewrite nth_error_map, (nth_error_combine_seq components 0 k topic Hk).
    reflexivity. }
  split; [reflexivity|]. split; [reflexivity|].
  split.
  { simpl. rewrite length_map, (top_indices_length E n topic Ha), Hl.
    reflexivity. }
  split; [exact (top_indices_NoDup E n topic Ha)|].
  split.
  { apply Forall_forall. intros i Hi. fold names. rewrite <- Hl.
    exact (top_indices_in E n topic i Ha Hi). }
  split; [exact (top_indices_descending E n topic Ha)|].
  split.
  { intros i j Hi Hj Hnj. fold names in Hj. rewrite <- Hl in Hj.
    exact (top_indices_highest E n topic i j Ha Hi Hj Hnj). }
  split; [reflexivity|].
  intros j Hj. fold names in Hj. rewrite <- Hl in Hj. simpl.
  apply (top_indices_head E n topic j Ha); [subst n; lia|exact Hj].
Qed.

End TopicList.

Lemma sample_topic_argsort :
  argsort_ascending Sample.libraries [1 # 2; 5 # 2; 3 # 2]%Q.
Proof.
  split.
  - change (Permutation [0; 2; 1] [0; 1; 2]).
    apply perm_skip. apply perm_swap.
  - change (StronglySorted
              (fun i j => (nth i [1 # 2; 5 # 2; 3 # 2] 0
                           <= nth j [1 # 2; 5 # 2; 3 # 2] 0)%Q) [0; 2; 1]).
    repeat constructor; simpl; unfold Qle; simpl; lia.
Qed.

Lemma extract_topics_records_witness :
  exists topics,
    extract_topics Sample.libraries Sample.cat_document 2 2
    = ([CallFitTransform [lit "The cat sat."; lit "The cat ran fast."];
        CallLdaFit 2], Ok topics) /\
    map topic_id topics = [1; 2]%Z /\
    map words topics = [[lit "fast"; lit "ran"]; [lit "fast"; lit "ran"]] /\
    map weight topics = [5 # 2; 5 # 2]%Q.
Proof.
  assert (Hrows : Forall
            (fun topic => argsort_ascending Sample.libraries topic /\
                          List.length topic
                          = List.length (feature_names
                              {| feature_names := Sample.vocabulary;
                                 doc_term_matrix := [[1; 1; 1]; [1; 1; 1]] |}))
            [[1 # 2; 5 # 2; 3 # 2]; [1 # 2; 5 # 2; 3 # 2]]%Q).
  { constructor; [split; [apply sample_topic_argsort|reflexivity]|].
    constructor; [split; [apply sample_topic_argsort|reflexivity]|].
    constructor. }
  assert (Hn : (2 <= len [lit "The cat sat."; lit "The cat ran fast."])%Z)
    by (vm_compute; discriminate).
  assert (Hvoc : 0 < List.length
                       (feature_names
                          {| feature_names := Sample.vocabulary;
                             doc_term_matrix := [[1; 1; 1]; [1; 1; 1]] |}))
    by (simpl; lia).
  assert (Hw : (1 <= 2)%Z) by lia.
  destruct (extract_topics_records Sample.libraries Sample.cat_document 2 2
              [lit "The cat sat."; lit "The cat ran fast."]
              {| feature_names := Sample.vocabulary;
                 doc_term_matrix := [[1; 1; 1]; [1; 1; 1]] |}
              [[1 # 2; 5 # 2; 3 # 2]; [1 # 2; 5 # 2; 3 # 2]]%Q
              eq_refl Hn eq_refl eq_refl eq_refl Hvoc Hrows Hw)
    as (topics & Heq & _ & Hid & _).
  exists topics. split; [exact Heq|]. split; [exact Hid|].
  vm_compute in Heq. injection Heq as <-. split; reflexivity.
Defined.

(** C10, as the specification has it, fails for [n_words = 0]: [l[-0:]] is the
    whole of [l], so each record lists the whole vocabulary, 3 terms, where
    [min(n_words, vocabulary size)] is 0. *)
Lemma extract_topics_zero_words_lists_all :
  exists topics,
    extract_topics Sample.libraries Sample.cat_document 2 0
    = ([CallFitTransform [lit "The cat sat."; lit "The cat ran fast."];
        CallLdaFit 2], Ok topics) /\
    List.length topics = 2 /\
    List.length Sample.vocabulary = 3 /\
    Forall (fun r => List.length (words r) = 3 /\
                     List.length (words r)
                     <> Nat.min (Z.to_nat 0)
                          (List.length Sample.vocabulary)) topics.
Proof.
  eexists. split; [vm_compute; reflexivity|].
  split; [reflexivity|]. split; [reflexivity|].
  repeat constructor; simpl; discriminate.
Qed.

(** ** A document without markers *)

Section Malformed.

Variable E : externals.
Variable self : ProjectGutenbergText.

(** What the libraries do with the empty text: it lowercases to itself,
    has no token and no sentence, and has a score. *)
Hypothesis lower_empty : lower E [] = [].
Hypothesis word_tokenize_empty : word_tokenize E [] = Ok [].
Hypothesis sent_tokenize_empty : sent_tokenize E [] = Ok [].
Variable empty_scores : scores.
Hypothesis polarity_scores_empty : polarity_scores E [] = Ok empty_scores.

Hypothesis body_empty : body_text self = [].

Lemma preprocess_empty : preprocess E self = Ok [].
Proof.
  unfold preprocess.
  rewrite body_empty, lower_empty, word_tokenize_empty. reflexivity.
Qed.

Lemma analyze_sentiment_empty :
  analyze_sentiment E self =
  Ok {| s_compound := sc_compound empty_scores;
        s_positive := sc_pos empty_scores;
        s_negative := sc_neg empty_scores;
        s_neutral := sc_neu empty_scores;
        s_classification := _classify_sentiment (sc_compound empty_scores);
        s_sentence_sentiments :=
          {| ss_mean := 0; ss_std := 0; ss_min := 0; ss_max := 0 |} |}.
Proof.
  unfold analyze_sentiment.
  rewrite body_empty, polarity_scores_empty, sent_tokenize_empty.
  reflexivity.
Qed.

Lemma analyze_style_empty :
  analyze_style E self [] =
  Ok {| type_token_ratio := round E 0 4;
        unique_words := 0;
        total_words := 0;
        unique_words_all := 0;
        total_words_all := 0;
        avg_word_length := round E 0 2;
        avg_sentence_length := round E 0 2;
        total_sentences := 0;
        vocabulary_richness := round E 0 4 |}.
Proof.
  unfold analyze_style.
  rewrite body_empty, lower_empty, word_tokenize_empty, sent_tokenize_empty.
  reflexivity.
Qed.

Lemma extract_topics_empty (n_words : Z) :
  extract_topics E self 3 n_words = ([], Ok []).
Proof.
  unfold extract_topics. rewrite body_empty, sent_tokenize_empty.
  reflexivity.
Qed.

(** C2. For a document whose body is empty, [analyze] prints its progress
    line and returns a record, raising nothing: no filtered token, an
    empty [top_words] and an empty [word_frequencies], the four sentence
    aggregates 0, every ratio, length and count of the style record 0, and
    no topic. *)
Theorem analyze_empty_body :
  exists a,
    analyze E self
    = ([Printed (lit "Analyzing " ++ pg_id self ++ lit ": "
               ++ title_shown self)], Ok a) /\
    preprocess E self = Ok [] /\
    a_id a = pg_id self /\
    a_metadata a = metadata self /\
    a_top_words a = [] /\
    a_word_frequencies a = [] /\
    s_sentence_sentiments (a_sentiment a)
    = {| ss_mean := 0; ss_std := 0; ss_min := 0; ss_max := 0 |} /\
    (type_token_ratio (a_style_metrics a) == 0)%Q /\
    (vocabulary_richness (a_style_metrics a) == 0)%Q /\
    (avg_word_length (a_style_metrics a) == 0)%Q /\
    (avg_sentence_length (a_style_metrics a) == 0)%Q /\
    unique_words (a_style_metrics a) = 0 /\
    total_words (a_style_metrics a) = 0 /\
    unique_words_all (a_style_metrics a) = 0 /\
    total_words_all (a_style_metrics a) = 0 /\
    total_sentences (a_style_metrics a) = 0 /\
    a_topics a = [].
Proof.
  eexists. split.
  - unfold analyze, bind, lift, emit, ret.
    rewrite preprocess_empty. cbv beta iota.
    change (build_bag_of_words [])
      with (Ok (@nil word_entry, @nil (str * nat))).
    cbv beta iota.
    rewrite analyze_sentiment_empty, analyze_style_empty, extract_topics_empty.
    reflexivity.
  - simpl. repeat split; reflexivity || exact preprocess_empty.
Qed.

End Malformed.

(** A text without markers has the empty body, so the theorem above is
    about every such document. *)
Lemma init_without_markers (stem content : str) :
  find content start_marker = (-1)%Z \/ find content end_marker = (-1)%Z ->
  body_text (__init__ stem content) = [].
Proof. intros H. simpl. apply extract_body_marker_absent. exact H. Qed.

Lemma analyze_empty_body_witness :
  exists a,
    analyze Sample.libraries Sample.bare_document
    = ([Printed (lit "Analyzing pg2: None")], Ok a) /\
    a_top_words a = [] /\
    a_word_frequencies a = [] /\
    a_topics a = [].
Proof.
  destruct (analyze_empty_body Sample.libraries Sample.bare_document
              eq_refl eq_refl eq_refl
              {| sc_compound := 0; sc_pos := 0; sc_neg := 0; sc_neu := 1 |}
              eq_refl
              (init_without_markers (lit "pg2") Sample.cat_text
                 (or_introl eq_refl)))
    as (a & Heq & _ & _ & _ & Htop & Hfreq & Hrest).
  exists a. split; [exact Heq|]. split; [exact Htop|]. split; [exact Hfreq|].
  apply Hrest.
Defined.

(** * Further properties of the code *)

(** ** Stripping *)

Lemma lstrip_by_head (p : char -> bool) (s : str) (c : char) (t : str) :
  lstrip_by p s = c :: t -> p c = false.
Proof.
  induction s as [|a s IH]; simpl; [discriminate|].
  destruct (p a) eqn:Ha; [exact IH|].
  intros H. injection H as <- _. exact Ha.
Qed.

(** What [lstrip] leaves is the text without a prefix of stripped
    characters. *)
Lemma lstrip_by_suffix (p : char -> bool) (s : str) :
  exists pre, s = pre ++ lstrip_by p s /\ forallb p pre = true.
Proof.
  induction s as [|a s IH]; simpl.
  - exists []. split; reflexivity.
  - destruct (p a) eqn:Ha.
    + destruct IH as (pre & Hs & Hp). exists (a :: pre). simpl.
      rewrite Ha, Hp. split; [f_equal; exact Hs|reflexivity].
    + exists []. split; reflexivity.
Qed.

Lemma rstrip_by_last (p : char -> bool) (s t : str) (c : char) :
  rstrip_by p s = t ++ [c] -> p c = false.
Proof.
  unfold rstrip_by. intros H.
  apply (f_equal (@rev char)) in H.
  rewrite rev_involutive, rev_app_distr in H. simpl in H.
  exact (lstrip_by_head _ _ _ _ H).
Qed.

Lemma rstrip_by_prefix (p : char -> bool) (s : str) :
  exists post, s = rstrip_by p s ++ post /\ forallb p post = true.
Proof.
  unfold rstrip_by.
  destruct (lstrip_by_suffix p (rev s)) as (pre & Hs & Hp).
  exists (rev pre). split.
  - rewrite <- rev_app_distr, <- Hs, rev_involutive. reflexivity.
  - rewrite forallb_forall in *. intros x Hx. apply Hp.
    apply in_rev. exact Hx.
Qed.

(** [strip] leaves no space at either end and keeps a part of the text. *)
Lemma strip_head (s : str) (c : char) (t : str) :
  strip s = c :: t -> isspace c = false.
Proof.
  unfold strip. intros H.
  destruct (rstrip_by_prefix isspace (lstrip_by isspace s)) as (post & Hs & _).
  rewrite H in Hs. simpl in Hs.
  exact (lstrip_by_head _ _ _ _ (eq_sym (eq_sym Hs))).
Qed.

Lemma strip_last (s t : str) (c : char) :
  strip s = t ++ [c] -> isspace c = false.
Proof. unfold strip. apply rstrip_by_last. Qed.

Lemma strip_part (s : str) :
  exists pre post, s = pre ++ strip s ++ post.
Proof.
  unfold strip.
  destruct (lstrip_by_suffix isspace s) as (pre & Hs & _).
  destruct (rstrip_by_prefix isspace (lstrip_by isspace s)) as (post & Hr & _).
  exists pre, post. rewrite <- Hr. exact Hs.
Qed.

Lemma last_of_suffix {A} (pre s t : list A) (c : A) :
  s <> [] -> pre ++ s = t ++ [c] -> exists t', s = t' ++ [c].
Proof.
  intros Hne H.
  destruct (exists_last Hne) as (t' & c' & ->).
  exists t'. rewrite app_assoc in H.
  apply app_inj_tail in H. destruct H as [_ ->]. reflexivity.
Qed.

(** ** More on the body *)

(** X1. Whatever the text, the body does not start with a byte-order mark
    and does not end with a space. *)
Theorem extract_body_ends (raw : str) :
  (forall c t, _extract_body raw = c :: t -> c <> bom) /\
  (forall t c, _extract_body raw = t ++ [c] -> isspace c = false).
Proof.
  unfold _extract_body.
  destruct (negb (find raw start_marker =? -1)%Z
            && negb (find raw end_marker =? -1)%Z).
  - set (sl := slice raw _ _). split.
    + intros c t H Hc. apply lstrip_by_head in H. subst c.
      vm_compute in H. discriminate.
    + intros t c H.
      destruct (lstrip_by_suffix (char_eqb bom) (strip sl)) as (pre & Hs & _).
      rewrite H in Hs.
      destruct (exists_last (l := strip sl)) as (t' & c' & Ht').
      { intros Hnil. rewrite Hnil in Hs.
        destruct pre; [destruct t|]; discriminate. }
      rewrite Ht', app_assoc in Hs.
      apply app_inj_tail in Hs. destruct Hs as [_ <-].
      exact (strip_last _ _ _ Ht').
  - split; intros; [discriminate|]. destruct t; discriminate.
Qed.

Lemma extract_body_ends_witness :
  _extract_body Sample.cat_file = lit "The cat sat. The cat ran fast" ++ [46%N]
  /\ isspace 46%N = false.
Proof.
  split; [vm_compute; reflexivity|].
  destruct (extract_body_ends Sample.cat_file) as [_ H].
  apply (H (lit "The cat sat. The cat ran fast") 46%N).
  vm_compute. reflexivity.
Defined.

Lemma slice_nonempty (s : str) (a b : Z) :
  (0 <= a)%Z -> (0 <= b)%Z -> slice s a b <> [] -> (a < b)%Z.
Proof.
  intros Ha Hb H. unfold slice, clip in H.
  destruct (a <? 0)%Z eqn:H1; [apply Z.ltb_lt in H1; lia|].
  destruct (b <? 0)%Z eqn:H2; [apply Z.ltb_lt in H2; lia|].
  destruct (Z_lt_le_dec a b) as [Hlt|Hge]; [exact Hlt|].
  exfalso. apply H.
  replace (Z.to_nat (Z.min b (len s) - Z.min a (len s))) with 0 by lia.
  reflexivity.
Qed.

Lemma find_from_lower_bound (s sub : str) (start : Z) :
  (0 <= start)%Z -> (-1 <= find_from s sub start)%Z.
Proof.
  intros H. unfold find_from.
  destruct (len s <? start)%Z; [lia|].
  unfold clip. destruct (start <? 0)%Z eqn:H1; [apply Z.ltb_lt in H1; lia|].
  generalize (skipn (Z.to_nat (Z.min start (len s))) s).
  assert (H0 : (0 <= Z.min start (len s))%Z) by (unfold len; lia).
  revert H0. generalize (Z.min start (len s)). intros i Hi l. revert i Hi.
  induction l as [|c l IH]; intros i Hi; simpl.
  - destruct (startswith sub []); lia.
  - destruct (startswith sub (c :: l)); [lia|]. apply IH. lia.
Qed.

(** X2. The body is empty unless both markers occur in the text and the end
    marker is first found after the character that follows the first line
    feed after the start marker. *)
Theorem extract_body_nonempty (raw : str) :
  _extract_body raw <> [] ->
  (exists pre post, raw = pre ++ start_marker ++ post) /\
  (exists pre post, raw = pre ++ end_marker ++ post) /\
  (find_from raw [nl] (find raw start_marker) + 1 < find raw end_marker)%Z.
Proof.
  unfold _extract_body. intros H.
  destruct (find raw start_marker =? -1)%Z eqn:Hs; [contradiction H; reflexivity|].
  destruct (find raw end_marker =? -1)%Z eqn:He; [contradiction H; reflexivity|].
  simpl in H. apply Z.eqb_neq in Hs, He.
  split; [apply find_present_iff; exact Hs|].
  split; [apply find_present_iff; exact He|].
  assert (H0 : (0 <= find raw start_marker)%Z).
  { pose proof (find_from_lower_bound raw start_marker 0 ltac:(lia)) as Hb.
    fold (find raw start_marker) in Hb. lia. }
  assert (H1 : (0 <= find raw end_marker)%Z).
  { pose proof (find_from_lower_bound raw end_marker 0 ltac:(lia)) as Hb.
    fold (find raw end_marker) in Hb. lia. }
  pose proof (find_from_lower_bound raw [nl] _ H0) as H2.
  apply (slice_nonempty raw); [lia|exact H1|].
  intros Hnil. apply H. rewrite Hnil. reflexivity.
Qed.

Lemma extract_body_nonempty_witness :
  exists pre post, Sample.cat_file = pre ++ end_marker ++ post.
Proof.
  apply (extract_body_nonempty Sample.cat_file).
  vm_compute. discriminate.
Defined.

Lemma extract_body_of_document_witness :
  _extract_body Sample.cat_file = Sample.cat_text.
Proof.
  destruct (extract_body_of_document
              (lit "Title: Foo" ++ [nl] ++ lit "Author: Bar" ++ [nl])
              (lit " FOO ***") (Sample.cat_text ++ [nl])
              (lit " FOO ***" ++ [nl])
              ltac:(vm_compute; reflexivity) ltac:(vm_compute; reflexivity)
              ltac:(vm_compute; reflexivity))
    as [_ H].
  vm_compute in H |- *. exact H.
Defined.

(** ** More on the header fields *)

Lemma after_literal_app (p s : str) : after_literal p (p ++ s) = Some s.
Proof.
  induction p as [|a p IH]; simpl; [reflexivity|].
  unfold char_eqb. rewrite N.eqb_refl. exact IH.
Qed.

Lemma ws_star_spaces (k : str -> option str) (ws s g : str) :
  forallb isspace ws = true ->
  ws_star k s = Some g -> ws_star k (ws ++ s) = Some g.
Proof.
  intros Hws Hk. induction ws as [|c ws IH]; simpl; [exact Hk|].
  simpl in Hws. apply andb_true_iff in Hws. destruct Hws as [Hc Hws].
  rewrite Hc, (IH Hws). reflexivity.
Qed.

Lemma ws_star_no_space (k : str -> option str) (c : char) (s : str) :
  isspace c = false -> ws_star k (c :: s) = k (c :: s).
Proof. intros H. simpl. rewrite H. reflexivity. Qed.


Lemma rest_of_line_app (value tail : str) :
  no_line_feed value = true -> line_ends tail ->
  rest_of_line (value ++ tail) = value.
Proof.
  intros Hv Ht. induction value as [|c v IH]; simpl.
  - destruct Ht as [->|[t ->]]; reflexivity.
  - simpl in Hv. apply andb_true_iff in Hv. destruct Hv as [Hc Hv].
    apply negb_true_iff in Hc. rewrite Hc, (IH Hv). reflexivity.
Qed.

Lemma rest_of_line_no_line_feed (s : str) :
  no_line_feed (rest_of_line s) = true.
Proof.
  induction s as [|c s IH]; simpl; [reflexivity|].
  destruct (char_eqb c nl) eqn:Hc; simpl; [reflexivity|].
  rewrite Hc, IH. reflexivity.
Qed.

Lemma dot_plus_lazy_no_line_feed (s g : str) :
  dot_plus_lazy s = Some g -> no_line_feed g = true.
Proof.
  revert g. induction s as [|c s IH]; intros g; simpl; [discriminate|].
  destruct (char_eqb c nl) eqn:Hc; [discriminate|].
  destruct (bracket_or_dollar s).
  - intros H. injection H as <-. simpl. rewrite Hc. reflexivity.
  - destruct (dot_plus_lazy s) as [g'|]; simpl; [|discriminate].
    intros H. injection H as <-. simpl. rewrite Hc, (IH g' eq_refl).
    reflexivity.
Qed.

(** The shortest run stops before the bracket that follows the value, or
    at the end of the text. *)
Lemma dot_plus_lazy_app (c : char) (v tail : str) :
  no_line_feed (c :: v) = true -> no_bracket v = true ->
  (tail = [] \/ tail = [nl] \/ exists t, tail = lbracket :: t) ->
  dot_plus_lazy ((c :: v) ++ tail) = Some (c :: v).
Proof.
  revert c. induction v as [|c' v IH]; intros c Hnl Hb Ht.
  - simpl in *. apply andb_true_iff in Hnl. destruct Hnl as [Hc _].
    apply negb_true_iff in Hc. rewrite Hc.
    destruct Ht as [->|[->|[t ->]]]; reflexivity.
  - simpl in Hnl, Hb.
    apply andb_true_iff in Hnl. destruct Hnl as [Hc Hnl].
    apply andb_true_iff in Hb. destruct Hb as [Hc' Hb].
    apply negb_true_iff in Hc, Hc'.
    change (((c :: c' :: v) ++ tail)) with (c :: ((c' :: v) ++ tail)).
    cbn [dot_plus_lazy]. rewrite Hc.
    assert (Hbd : bracket_or_dollar ((c' :: v) ++ tail) = false).
    { simpl. rewrite Hc'. simpl.
      destruct (v ++ tail) eqn:Hvt; [|reflexivity].
      apply andb_true_iff in Hnl. destruct Hnl as [Hn _].
      apply negb_true_iff in Hn. exact Hn. }
    rewrite Hbd, (IH c' Hnl Hb Ht). reflexivity.
Qed.

Lemma re_search_found (m : str -> option str) (s g : str) :
  re_search m s = Some g -> exists k, m (skipn k s) = Some g.
Proof.
  induction s as [|c s IH]; simpl.
  - destruct (m []) eqn:H; [|discriminate].
    intros Hg. exists 0. simpl. congruence.
  - destruct (m (c :: s)) eqn:H.
    + intros Hg. exists 0. simpl. congruence.
    + intros Hg. destruct (IH Hg) as [k Hk]. exists (S k). exact Hk.
Qed.

Lemma ws_star_found (k : str -> option str) (s g : str) :
  ws_star k s = Some g -> exists t, k t = Some g.
Proof.
  induction s as [|c s IH]; simpl.
  - intros H. exists []. exact H.
  - destruct (isspace c).
    + destruct (ws_star k s) as [g'|] eqn:Hw.
      * intros H. injection H as <-. apply IH. reflexivity.
      * intros H. exists (c :: s). exact H.
    + intros H. exists (c :: s). exact H.
Qed.

Lemma no_line_feed_app (a b : str) :
  no_line_feed (a ++ b) = no_line_feed a && no_line_feed b.
Proof. apply forallb_app. Qed.

Lemma strip_no_line_feed (s : str) :
  no_line_feed s = true -> no_line_feed (strip s) = true.
Proof.
  intros H. destruct (strip_part s) as (pre & post & Hs).
  rewrite Hs, !no_line_feed_app in H.
  apply andb_true_iff in H. destruct H as [_ H].
  apply andb_true_iff in H. destruct H as [H _]. exact H.
Qed.

Section Fields.

Variable stem : str.

(** X4. A header line gives its field: when the label [Title:],
    [Author:] or [Language:] is first found before some spaces and a value
    that starts with no space, has no line feed and goes up to the end of
    its line, the field is the value without the spaces at its end. *)
Theorem field_of_line (label before spaces value tail : str) (c0 : char) :
  let raw := before ++ label ++ spaces ++ (c0 :: value) ++ tail in
  find raw label = len before ->
  forallb isspace spaces = true ->
  isspace c0 = false ->
  no_line_feed (c0 :: value) = true ->
  line_ends tail ->
  (label = lit "Title:" ->
   md_title (_extract_metadata stem raw) = Some (strip (c0 :: value))) /\
  (label = lit "Author:" ->
   md_author (_extract_metadata stem raw) = Some (strip (c0 :: value))) /\
  (label = lit "Language:" ->
   md_language (_extract_metadata stem raw) = Some (strip (c0 :: value))).
Proof.
  intros raw Hfind Hsp Hc Hnl Ht.
  assert (H : re_search (match_field label) raw = Some (c0 :: value)).
  { apply search_label_first with (k := ws_star dot_plus); [exact Hfind|].
    rewrite after_literal_app.
    apply ws_star_spaces; [exact Hsp|].
    change ((c0 :: value) ++ tail) with (c0 :: (value ++ tail)).
    rewrite ws_star_no_space by exact Hc.
    unfold dot_plus.
    change (c0 :: value ++ tail) with ((c0 :: value) ++ tail).
    rewrite (rest_of_line_app _ _ Hnl Ht). reflexivity. }
  repeat split; intros ->; simpl; rewrite H; reflexivity.
Qed.

(** X5. A release-date line gives its field when the value is followed by
    a bracket or ends the text: the field is the value, which starts with
    no space and has neither a line feed nor a bracket after its first
    character, without the spaces at its end. *)
Theorem release_date_of_line_value
  (before spaces value tail : str) (c0 : char) :
  let raw := before ++ lit "Release date:" ++ spaces ++ (c0 :: value)
             ++ tail in
  find raw (lit "Release date:") = len before ->
  forallb isspace spaces = true ->
  isspace c0 = false ->
  no_line_feed (c0 :: value) = true ->
  no_bracket value = true ->
  (tail = [] \/ tail = [nl] \/ exists t, tail = lbracket :: t) ->
  md_release_date (_extract_metadata stem raw) = Some (strip (c0 :: value)).
Proof.
  intros raw Hfind Hsp Hc Hnl Hb Ht.
  assert (H : re_search match_release_date raw = Some (c0 :: value)).
  { apply search_label_first with (k := ws_star dot_plus_lazy);
      [exact Hfind|].
    rewrite after_literal_app.
    apply ws_star_spaces; [exact Hsp|].
    change ((c0 :: value) ++ tail) with (c0 :: (value ++ tail)).
    rewrite ws_star_no_space by exact Hc.
    change (c0 :: value ++ tail) with ((c0 :: value) ++ tail).
    apply dot_plus_lazy_app; assumption. }
  simpl. rewrite H. reflexivity.
Qed.

End Fields.

Lemma field_of_line_witness :
  md_language
    (_extract_metadata (lit "pg1")
       (lit "Title: Foo" ++ [nl] ++ lit "Language:  English " ++ [nl]
        ++ lit "Credits: none"))
  = Some (lit "English").
Proof.
  destruct (field_of_line (lit "pg1") (lit "Language:")
              (lit "Title: Foo" ++ [nl]) (lit "  ") (lit "nglish ")
              (nl :: lit "Credits: none") 69%N
              ltac:(vm_compute; reflexivity) eq_refl eq_refl eq_refl
              (or_intror (ex_intro _ (lit "Credits: none") eq_refl)))
    as (_ & _ & H).
  exact (H eq_refl).
Defined.

Lemma release_date_of_line_value_witness :
  md_release_date
    (_extract_metadata (lit "pg1")
       (lit "Title: Foo" ++ [nl]
        ++ lit "Release date: June 1, 1998 [eBook #1342]" ++ [nl]))
  = Some (lit "June 1, 1998").
Proof.
  exact (release_date_of_line_value (lit "pg1")
           (lit "Title: Foo" ++ [nl]) (lit " ") (lit "une 1, 1998 ")
           (lit "[eBook #1342]" ++ [nl]) 74%N
           ltac:(vm_compute; reflexivity) eq_refl eq_refl eq_refl eq_refl
           (or_intror (or_intror
              (ex_intro _ (lit "eBook #1342]" ++ [nl]) eq_refl)))).
Defined.

Lemma match_field_no_line_feed (label s g : str) :
  match_field label s = Some g -> no_line_feed g = true.
Proof.
  unfold match_field. destruct (after_literal label s) as [s'|];
    [|discriminate].
  intros H. apply ws_star_found in H. destruct H as [t Ht].
  unfold dot_plus in Ht.
  pose proof (rest_of_line_no_line_feed t) as Hn.
  destruct (rest_of_line t); [discriminate|].
  injection Ht as <-. exact Hn.
Qed.

Lemma match_release_date_no_line_feed (s g : str) :
  match_release_date s = Some g -> no_line_feed g = true.
Proof.
  unfold match_release_date.
  destruct (after_literal (lit "Release date:") s) as [s'|]; [|discriminate].
  intros H. apply ws_star_found in H. destruct H as [t Ht].
  exact (dot_plus_lazy_no_line_feed _ _ Ht).
Qed.

Lemma stripped_match (m : str -> option str) (raw v : str) :
  (forall s g, m s = Some g -> no_line_feed g = true) ->
  option_map strip (re_search m raw) = Some v ->
  no_line_feed v = true /\
  (forall c t, v = c :: t -> isspace c = false) /\
  (forall t c, v = t ++ [c] -> isspace c = false).
Proof.
  intros Hm H. destruct (re_search m raw) as [g|] eqn:Hg; [|discriminate].
  simpl in H. injection H as <-.
  apply re_search_found in Hg. destruct Hg as [k Hk].
  split; [apply strip_no_line_feed; exact (Hm _ _ Hk)|].
  split.
  - intros c t Hv. exact (strip_head _ _ _ Hv).
  - intros t c Hv. exact (strip_last _ _ _ Hv).
Qed.

(** X6. A field that is found holds one line without the spaces around
    it: its value has no line feed, does not start with a space and does
    not end with one. *)
Theorem metadata_values_trimmed (stem raw v : str) :
  In (Some v)
    [md_title (_extract_metadata stem raw);
     md_author (_extract_metadata stem raw);
     md_release_date (_extract_metadata stem raw);
     md_language (_extract_metadata stem raw)] ->
  no_line_feed v = true /\
  (forall c t, v = c :: t -> isspace c = false) /\
  (forall t c, v = t ++ [c] -> isspace c = false).
Proof.
  simpl. intros [H|[H|[H|[H|[]]]]].
  - exact (stripped_match _ raw v (match_field_no_line_feed _) H).
  - exact (stripped_match _ raw v (match_field_no_line_feed _) H).
  - exact (stripped_match _ raw v match_release_date_no_line_feed H).
  - exact (stripped_match _ raw v (match_field_no_line_feed _) H).
Qed.

Lemma metadata_values_trimmed_witness :
  no_line_feed (lit "Foo") = true.
Proof.
  apply (metadata_values_trimmed (lit "pg1") Sample.cat_file (lit "Foo")).
  left. vm_compute. reflexivity.
Defined.

(** X7. A field whose label occurs nowhere in the text is [None]. *)
Theorem metadata_label_absent (stem raw : str) :
  (find raw (lit "Title:") = (-1)%Z ->
   md_title (_extract_metadata stem raw) = None) /\
  (find raw (lit "Author:") = (-1)%Z ->
   md_author (_extract_metadata stem raw) = None) /\
  (find raw (lit "Release date:") = (-1)%Z ->
   md_release_date (_extract_metadata stem raw) = None) /\
  (find raw (lit "Language:") = (-1)%Z ->
   md_language (_extract_metadata stem raw) = None).
Proof.
  repeat split; intros H; simpl.
  - rewrite (search_label_absent _ (ws_star dot_plus) raw H : re_search
      (match_field (lit "Title:")) raw = None). reflexivity.
  - rewrite (search_label_absent _ (ws_star dot_plus) raw H : re_search
      (match_field (lit "Author:")) raw = None). reflexivity.
  - rewrite (search_label_absent _ (ws_star dot_plus_lazy) raw H : re_search
      match_release_date raw = None). reflexivity.
  - rewrite (search_label_absent _ (ws_star dot_plus) raw H : re_search
      (match_field (lit "Language:")) raw = None). reflexivity.
Qed.

Lemma metadata_label_absent_witness :
  md_language (_extract_metadata (lit "pg1") Sample.cat_file) = None.
Proof.
  destruct (metadata_label_absent (lit "pg1") Sample.cat_file)
    as (_ & _ & _ & H).
  apply H. vm_compute. reflexivity.
Defined.

(** ** The header of a document *)

Lemma lstrip_by_spaces (p : char -> bool) (ws s : str) :
  forallb p ws = true -> lstrip_by p (ws ++ s) = lstrip_by p s.
Proof.
  intros H. induction ws as [|c ws IH]; simpl; [reflexivity|].
  simpl in H. apply andb_true_iff in H. destruct H as [Hc Hws].
  rewrite Hc. exact (IH Hws).
Qed.

Lemma rstrip_by_spaces (p : char -> bool) (s ws : str) :
  forallb p ws = true -> rstrip_by p (s ++ ws) = rstrip_by p s.
Proof.
  intros H. unfold rstrip_by. rewrite rev_app_distr.
  rewrite lstrip_by_spaces; [reflexivity|].
  rewrite forallb_forall in *. intros x Hx. apply H. apply in_rev. exact Hx.
Qed.

(** A value that neither starts nor ends with a space loses the spaces
    that follow it, and nothing else. *)
Lemma strip_value_trail (c : char) (v trail : str) :
  isspace c = false -> rstrip_by isspace (c :: v) = c :: v ->
  forallb isspace trail = true ->
  strip ((c :: v) ++ trail) = c :: v.
Proof.
  intros Hc Hv Ht. unfold strip.
  change ((c :: v) ++ trail) with (c :: (v ++ trail)).
  simpl lstrip_by. rewrite Hc.
  change (c :: v ++ trail) with ((c :: v) ++ trail).
  rewrite rstrip_by_spaces by exact Ht. exact Hv.
Qed.

(** What the pattern of a label finds at the first place of the text that
    carries the label: the spaces after the label are skipped and the rest
    of the line is the group. *)
Lemma search_field_value
  (label raw before spaces value tail : str) (c0 : char) :
  raw = before ++ label ++ spaces ++ (c0 :: value) ++ tail ->
  find raw label = len before ->
  forallb isspace spaces = true ->
  isspace c0 = false ->
  no_line_feed (c0 :: value) = true ->
  line_ends tail ->
  re_search (match_field label) raw = Some (c0 :: value).
Proof.
  intros -> Hfind Hsp Hc Hnl Ht.
  apply search_label_first with (k := ws_star dot_plus); [exact Hfind|].
  rewrite after_literal_app.
  apply ws_star_spaces; [exact Hsp|].
  change ((c0 :: value) ++ tail) with (c0 :: (value ++ tail)).
  rewrite ws_star_no_space by exact Hc.
  unfold dot_plus.
  change (c0 :: value ++ tail) with ((c0 :: value) ++ tail).
  rewrite (rest_of_line_app _ _ Hnl Ht). reflexivity.
Qed.

(** The same for the release date, whose group stops before a bracket. *)
Lemma search_release_date_value
  (raw before spaces value tail : str) (c0 : char) :
  raw = before ++ lit "Release date:" ++ spaces ++ (c0 :: value)
        ++ lbracket :: tail ->
  find raw (lit "Release date:") = len before ->
  forallb isspace spaces = true ->
  isspace c0 = false ->
  no_line_feed (c0 :: value) = true ->
  no_bracket value = true ->
  re_search match_release_date raw = Some (c0 :: value).
Proof.
  intros -> Hfind Hsp Hc Hnl Hb.
  apply search_label_first with (k := ws_star dot_plus_lazy);
    [exact Hfind|].
  rewrite after_literal_app.
  apply ws_star_spaces; [exact Hsp|].
  change ((c0 :: value) ++ lbracket :: tail)
    with (c0 :: (value ++ lbracket :: tail)).
  rewrite ws_star_no_space by exact Hc.
  change (c0 :: value ++ lbracket :: tail)
    with ((c0 :: value) ++ lbracket :: tail).
  apply dot_plus_lazy_app; [exact Hnl|exact Hb|].
  right. right. exists tail. reflexivity.
Qed.

(** Appending the rest of the text to a header given by its parts. *)
Lemma app_rest6 (a b c d e f rest : str) :
  (a ++ b ++ c ++ d ++ e ++ f) ++ rest = a ++ b ++ c ++ d ++ e ++ f ++ rest.
Proof. rewrite <- !app_assoc. reflexivity. Qed.

Lemma app_rest7 (a b c d e f g rest : str) :
  (a ++ b ++ c ++ d ++ e ++ f ++ g) ++ rest
  = a ++ b ++ c ++ d ++ e ++ f ++ g ++ rest.
Proof. rewrite <- !app_assoc. reflexivity. Qed.

(** C9, as the specification has it, fails. Two documents with both
    markers, whose headers have the lines [Title: Foo] and [Author: Bar]
    and no line for the release date or the language. In the first one a
    line of the body begins with [Language:]: the pattern is searched in
    the whole text and the language is [a word on it.], not [None]. In the
    second one the header has the line [Original Title: Baz] before the
    two: the pattern is not anchored to the start of a line and the title
    is [Baz], not [Foo]. *)
Lemma metadata_beyond_the_header_lines :
  let expected :=
    {| md_pg_id := lit "pg1";
       md_title := Some (lit "Foo");
       md_author := Some (lit "Bar");
       md_release_date := None;
       md_language := None |} in
  let in_body :=
    lit "Title: Foo" ++ [nl] ++ lit "Author: Bar" ++ [nl]
    ++ lit "*** START OF THE PROJECT GUTENBERG EBOOK FOO ***" ++ [nl]
    ++ lit "Language: a word on it." ++ [nl]
    ++ lit "*** END OF THE PROJECT GUTENBERG EBOOK FOO ***" ++ [nl] in
  let in_line :=
    lit "Original Title: Baz" ++ [nl]
    ++ lit "Title: Foo" ++ [nl] ++ lit "Author: Bar" ++ [nl]
    ++ lit "*** START OF THE PROJECT GUTENBERG EBOOK FOO ***" ++ [nl]
    ++ lit "The cat sat." ++ [nl]
    ++ lit "*** END OF THE PROJECT GUTENBERG EBOOK FOO ***" ++ [nl] in
  (_extract_body in_body = lit "Language: a word on it." /\
   lines_of (header_of in_body) = [lit "Title: Foo"; lit "Author: Bar"; []] /\
   _extract_metadata (lit "pg1") in_body =
   {| md_pg_id := lit "pg1";
      md_title := Some (lit "Foo");
      md_author := Some (lit "Bar");
      md_release_date := None;
      md_language := Some (lit "a word on it.") |} /\
   _extract_metadata (lit "pg1") in_body <> expected) /\
  (_extract_body in_line = lit "The cat sat." /\
   lines_of (header_of in_line) =
   [lit "Original Title: Baz"; lit "Title: Foo"; lit "Author: Bar"; []] /\
   _extract_metadata (lit "pg1") in_line =
   {| md_pg_id := lit "pg1";
      md_title := Some (lit "Baz");
      md_author := Some (lit "Bar");
      md_release_date := None;
      md_language := None |} /\
   _extract_metadata (lit "pg1") in_line <> expected).
Proof.
  vm_compute.
  repeat split; try reflexivity; intros H; discriminate H.
Qed.

Opaque start_marker end_marker.

(** C9, as amended. A document with both markers, [header] being the text
    before the start marker. The four patterns are searched in the whole
    text, each on its own, and none is anchored to the start of a line: a
    field is decided by the first place of the text that carries its
    label.

    - When the header line [Title: Foo] is that place for [Title:], the
      title is [Foo], whatever the three other labels do; the same for
      [Author: Bar] and the author. The spaces after the label and at the
      end of the line are not part of the value.
    - A release date or a language whose label occurs nowhere in the text
      is [None], whatever the other labels do.
    - With the two lines and without the two other labels, the record is
      exactly title [Foo], author [Bar], release date [None] and language
      [None].
    - The two other fields are searched as well: a [Language:] line of the
      header, or a [Release date:] line of the header with a bracket after
      the date, gives its value when it is the first place that carries
      the label. *)
Theorem metadata_title_author_only (stem header line text footer : str) :
  let raw := header ++ (start_marker ++ line ++ [nl]) ++ text
             ++ end_marker ++ footer in
  let found := _extract_metadata stem raw in
  (forall before spaces trail after,
     header = before ++ lit "Title:" ++ spaces ++ lit "Foo" ++ trail ++ [nl]
              ++ after ->
     find raw (lit "Title:") = len before ->
     forallb isspace spaces = true ->
     forallb isspace trail = true -> no_line_feed trail = true ->
     md_title found = Some (lit "Foo")) /\
  (forall before spaces trail after,
     header = before ++ lit "Author:" ++ spaces ++ lit "Bar" ++ trail ++ [nl]
              ++ after ->
     find raw (lit "Author:") = len before ->
     forallb isspace spaces = true ->
     forallb isspace trail = true -> no_line_feed trail = true ->
     md_author found = Some (lit "Bar")) /\
  (find raw (lit "Release date:") = (-1)%Z -> md_release_date found = None) /\
  (find raw (lit "Language:") = (-1)%Z -> md_language found = None) /\
  (forall before_title after_title before_author after_author,
     header = before_title ++ lit "Title: Foo" ++ [nl] ++ after_title ->
     header = before_author ++ lit "Author: Bar" ++ [nl] ++ after_author ->
     find raw (lit "Title:") = len before_title ->
     find raw (lit "Author:") = len before_author ->
     find raw (lit "Release date:") = (-1)%Z ->
     find raw (lit "Language:") = (-1)%Z ->
     found =
     {| md_pg_id := stem;
        md_title := Some (lit "Foo");
        md_author := Some (lit "Bar");
        md_release_date := None;
        md_language := None |}) /\
  (forall before spaces c0 value after,
     header = before ++ lit "Language:" ++ spaces ++ (c0 :: value) ++ [nl]
              ++ after ->
     find raw (lit "Language:") = len before ->
     forallb isspace spaces = true ->
     isspace c0 = false -> no_line_feed (c0 :: value) = true ->
     md_language found = Some (strip (c0 :: value))) /\
  (forall before spaces c0 value after,
     header = before ++ lit "Release date:" ++ spaces ++ (c0 :: value)
              ++ lbracket :: after ->
     find raw (lit "Release date:") = len before ->
     forallb isspace spaces = true ->
     isspace c0 = false -> no_line_feed (c0 :: value) = true ->
     no_bracket value = true ->
     md_release_date found = Some (strip (c0 :: value))).
Proof.
  intros raw found. subst found. unfold _extract_metadata.
  cbn [md_title md_author md_release_date md_language].
  revert raw.
  generalize ((start_marker ++ line ++ [nl]) ++ text ++ end_marker ++ footer).
  intros rest raw.
  assert (Hfoo : forall trail,
             forallb isspace trail = true ->
             strip (lit "Foo" ++ trail) = lit "Foo").
  { intros trail Ht.
    apply (strip_value_trail 70%N (lit "oo") trail); [reflexivity| |exact Ht].
    vm_compute. reflexivity. }
  assert (Hbar : forall trail,
             forallb isspace trail = true ->
             strip (lit "Bar" ++ trail) = lit "Bar").
  { intros trail Ht.
    apply (strip_value_trail 66%N (lit "ar") trail); [reflexivity| |exact Ht].
    vm_compute. reflexivity. }
  assert (Htitle : forall before spaces trail after,
             header = before ++ lit "Title:" ++ spaces ++ lit "Foo" ++ trail
                      ++ [nl] ++ after ->
             find raw (lit "Title:") = len before ->
             forallb isspace spaces = true ->
             forallb isspace trail = true -> no_line_feed trail = true ->
             option_map strip (re_search (match_field (lit "Title:")) raw)
             = Some (lit "Foo")).
  { intros before spaces trail after Hh Hf Hsp Htr Hnl.
    rewrite (search_field_value (lit "Title:") raw before spaces
               (lit "oo" ++ trail) (nl :: after ++ rest) 70%N).
    - change (Some (strip (lit "Foo" ++ trail)) = Some (lit "Foo")).
      rewrite (Hfoo trail Htr). reflexivity.
    - subst raw. rewrite Hh.
      exact (app_rest7 before (lit "Title:") spaces (lit "Foo") trail [nl]
               after rest).
    - exact Hf.
    - exact Hsp.
    - reflexivity.
    - change (no_line_feed (lit "Foo" ++ trail) = true).
      rewrite no_line_feed_app, Hnl. reflexivity.
    - right. exists (after ++ rest). reflexivity. }
  assert (Hauthor : forall before spaces trail after,
             header = before ++ lit "Author:" ++ spaces ++ lit "Bar" ++ trail
                      ++ [nl] ++ after ->
             find raw (lit "Author:") = len before ->
             forallb isspace spaces = true ->
             forallb isspace trail = true -> no_line_feed trail = true ->
             option_map strip (re_search (match_field (lit "Author:")) raw)
             = Some (lit "Bar")).
  { intros before spaces trail after Hh Hf Hsp Htr Hnl.
    rewrite (search_field_value (lit "Author:") raw before spaces
               (lit "ar" ++ trail) (nl :: after ++ rest) 66%N).
    - change (Some (strip (lit "Bar" ++ trail)) = Some (lit "Bar")).
      rewrite (Hbar trail Htr). reflexivity.
    - subst raw. rewrite Hh.
      exact (app_rest7 before (lit "Author:") spaces (lit "Bar") trail [nl]
               after rest).
    - exact Hf.
    - exact Hsp.
    - reflexivity.
    - change (no_line_feed (lit "Bar" ++ trail) = true).
      rewrite no_line_feed_app, Hnl. reflexivity.
    - right. exists (after ++ rest). reflexivity. }
  assert (Hdate : find raw (lit "Release date:") = (-1)%Z ->
                  option_map strip (re_search match_release_date raw) = None).
  { intros H.
    rewrite (search_label_absent _ (ws_star dot_plus_lazy) raw H
             : re_search match_release_date raw = None). reflexivity. }
  assert (Hlang : find raw (lit "Language:") = (-1)%Z ->
                  option_map strip
                    (re_search (match_field (lit "Language:")) raw) = None).
  { intros H.
    rewrite (search_label_absent _ (ws_star dot_plus) raw H
             : re_search (match_field (lit "Language:")) raw = None).
    reflexivity. }
  split; [exact Htitle|]. split; [exact Hauthor|].
  split; [exact Hdate|]. split; [exact Hlang|].
  split; [|split].
  - intros bt at_ ba aa Ht Ha Hft Hfa Hd Hl.
    rewrite (Htitle bt [32%N] [] at_ Ht Hft eq_refl eq_refl eq_refl).
    rewrite (Hauthor ba [32%N] [] aa Ha Hfa eq_refl eq_refl eq_refl).
    rewrite (Hdate Hd), (Hlang Hl). reflexivity.
  - intros before spaces c0 value after Hh Hf Hsp Hc Hnl.
    rewrite (search_field_value (lit "Language:") raw before spaces
               value (nl :: after ++ rest) c0).
    + reflexivity.
    + subst raw. rewrite Hh.
      exact (app_rest6 before (lit "Language:") spaces (c0 :: value) [nl]
               after rest).
    + exact Hf.
    + exact Hsp.
    + exact Hc.
    + exact Hnl.
    + right. exists (after ++ rest). reflexivity.
  - intros before spaces c0 value after Hh Hf Hsp Hc Hnl Hb.
    rewrite (search_release_date_value raw before spaces value
               (after ++ rest) c0).
    + reflexivity.
    + subst raw. rewrite Hh.
      exact (app_rest6 before (lit "Release date:") spaces (c0 :: value)
               [lbracket] after rest).
    + exact Hf.
    + exact Hsp.
    + exact Hc.
    + exact Hnl.
    + exact Hb.
Qed.

Transparent start_marker end_marker.

Lemma metadata_title_author_only_witness :
  _extract_body Sample.cat_file = Sample.cat_text /\
  _extract_metadata (lit "pg1") Sample.cat_file =
  {| md_pg_id := lit "pg1";
     md_title := Some (lit "Foo");
     md_author := Some (lit "Bar");
     md_release_date := None;
     md_language := None |}.
Proof.
  split; [vm_compute; reflexivity|].
  destruct (metadata_title_author_only (lit "pg1")
              (lit "Title: Foo" ++ [nl] ++ lit "Author: Bar" ++ [nl])
              (lit " FOO ***") (Sample.cat_text ++ [nl])
              (lit " FOO ***" ++ [nl]))
    as (_ & _ & _ & _ & H & _).
  exact (H [] (lit "Author: Bar" ++ [nl]) (lit "Title: Foo" ++ [nl]) []
           ltac:(vm_compute; reflexivity) ltac:(vm_compute; reflexivity)
           ltac:(vm_compute; reflexivity) ltac:(vm_compute; reflexivity)
           ltac:(vm_compute; reflexivity) ltac:(vm_compute; reflexivity)).
Defined.

(** ** More on the sentiment *)

(** X8. A higher compound score never gets a lower class: from negative
    through neutral to positive, the class grows with the score. *)
Theorem classify_sentiment_monotone (c c' : Q) :
  (c <= c')%Q ->
  class_rank (_classify_sentiment c) <= class_rank (_classify_sentiment c').
Proof.
  intros H. unfold _classify_sentiment.
  destruct (Qle_bool (5 # 100) c) eqn:Hp.
  - apply Qle_bool_iff in Hp.
    assert (Hp' : Qle_bool (5 # 100) c' = true)
      by (apply Qle_bool_iff; eapply Qle_trans; eassumption).
    rewrite Hp'. simpl. lia.
  - destruct (Qle_bool c (- (5 # 100))) eqn:Hn.
    + simpl. lia.
    + destruct (Qle_bool (5 # 100) c') eqn:Hp'; [simpl; lia|].
      destruct (Qle_bool c' (- (5 # 100))) eqn:Hn'; [|simpl; lia].
      apply Qle_bool_iff in Hn'.
      assert (Habs : Qle_bool c (- (5 # 100)) = true)
        by (apply Qle_bool_iff; eapply Qle_trans; eassumption).
      congruence.
Qed.

Lemma classify_sentiment_monotone_witness :
  class_rank (_classify_sentiment (- (1 # 2)))
  <= class_rank (_classify_sentiment (1 # 50)).
Proof.
  apply classify_sentiment_monotone. vm_compute. discriminate.
Defined.

(** A comprehension returns exactly when its element expression returns
    on every element. *)
Lemma mapM_returns {A B} (f : A -> result B) (l : list A) :
  (exists out, mapM f l = Ok out) <-> Forall (fun a => exists b, f a = Ok b) l.
Proof.
  split.
  - intros [out H]. apply mapM_Forall2 in H.
    induction H as [|a b l out Hab _ IH]; constructor; [|exact IH].
    exists b. exact Hab.
  - induction 1 as [|a l [b Hb] _ [out IH]].
    + exists []. reflexivity.
    + exists (b :: out). simpl. rewrite Hb, IH. reflexivity.
Qed.

Section Sentences.

Variable E : externals.
Variable self : ProjectGutenbergText.

Lemma compound_of_sentences_nonblank (sentences : list str) :
  compound_of_sentences E sentences =
  mapM (fun sent => (sc <- polarity_scores E sent ;; Ok (sc_compound sc))%py)
    (filter nonblank sentences).
Proof.
  induction sentences as [|sent rest IH]; simpl; [reflexivity|].
  unfold nonblank at 1. destruct (strip sent) eqn:Hs.
  - exact IH.
  - simpl. destruct (polarity_scores E sent); simpl; [|reflexivity].
    rewrite IH. destruct (mapM _ _); reflexivity.
Qed.

(** X9. [analyze_sentiment] scores the body, then the sentences that are
    not blank, and no other sentence. It returns exactly when the body is
    scored, the sentence tokenizer returns and each sentence that is not
    blank is scored. The record it returns holds the four scores of the
    body; its classification is positive from 0.05 on, negative up to
    -0.05 and neutral between; and its four aggregates are numpy's mean,
    standard deviation, minimum and maximum of the compound scores of the
    sentences that are not blank, one score per sentence and in their
    order, or 0 each when there is no such sentence. When it does not
    return, it raises what the first call to fail raised: the scoring of
    the body, the tokenizer, or the scoring of the first sentence, not
    blank, that cannot be scored. *)
Theorem analyze_sentiment_record :
  ((exists s, analyze_sentiment E self = Ok s) <->
   (exists sc sentences,
      polarity_scores E (body_text self) = Ok sc /\
      sent_tokenize E (body_text self) = Ok sentences /\
      Forall (fun sent => exists sc', polarity_scores E sent = Ok sc')
        (filter nonblank sentences))) /\
  (forall s, analyze_sentiment E self = Ok s ->
   exists sc sentences compounds,
     polarity_scores E (body_text self) = Ok sc /\
     sent_tokenize E (body_text self) = Ok sentences /\
     Forall2 (fun sent c =>
                exists sc', polarity_scores E sent = Ok sc' /\
                            c = sc_compound sc')
       (filter nonblank sentences) compounds /\
     s_compound s = sc_compound sc /\
     s_positive s = sc_pos sc /\
     s_negative s = sc_neg sc /\
     s_neutral s = sc_neu sc /\
     ((5 # 100 <= sc_compound sc)%Q ->
      s_classification s = Sentiment.positive) /\
     ((sc_compound sc <= - (5 # 100))%Q ->
      s_classification s = Sentiment.negative) /\
     ((- (5 # 100) < sc_compound sc)%Q -> (sc_compound sc < 5 # 100)%Q ->
      s_classification s = Sentiment.neutral) /\
     (compounds <> [] ->
      s_sentence_sentiments s =
      {| ss_mean := np_mean E compounds;
         ss_std := np_std E compounds;
         ss_min := np_min E compounds;
         ss_max := np_max E compounds |}) /\
     (compounds = [] ->
      s_sentence_sentiments s =
      {| ss_mean := 0; ss_std := 0; ss_min := 0; ss_max := 0 |})) /\
  (forall e, polarity_scores E (body_text self) = Raise e ->
             analyze_sentiment E self = Raise e) /\
  (forall sc e,
     polarity_scores E (body_text self) = Ok sc ->
     sent_tokenize E (body_text self) = Raise e ->
     analyze_sentiment E self = Raise e) /\
  (forall sc before sent after e,
     polarity_scores E (body_text self) = Ok sc ->
     sent_tokenize E (body_text self) = Ok (before ++ sent :: after) ->
     Forall (fun sent' => exists sc', polarity_scores E sent' = Ok sc')
       (filter nonblank before) ->
     nonblank sent = true ->
     polarity_scores E sent = Raise e ->
     analyze_sentiment E self = Raise e).
Proof.
  split; [|split; [|split; [|split]]].
  - unfold analyze_sentiment. split.
    + intros [s H].
      destruct (polarity_scores E (body_text self)) as [sc|] eqn:Hsc;
        [|discriminate].
      destruct (sent_tokenize E (body_text self)) as [sentences|] eqn:Hst;
        [|discriminate].
      simpl in H. rewrite compound_of_sentences_nonblank in H.
      destruct (mapM _ (filter nonblank sentences)) as [compounds|] eqn:Hc;
        [|discriminate].
      exists sc, sentences. split; [reflexivity|]. split; [reflexivity|].
      assert (Hr : exists out,
                 mapM (fun sent =>
                         (sc0 <- polarity_scores E sent ;;
                          Ok (sc_compound sc0))%py)
                   (filter nonblank sentences) = Ok out)
        by (exists compounds; exact Hc).
      apply mapM_returns in Hr.
      eapply Forall_impl; [|exact Hr].
      intros sent [c Hsent].
      destruct (polarity_scores E sent) as [sc'|]; [|discriminate].
      exists sc'. reflexivity.
    + intros (sc & sentences & Hsc & Hst & Hall).
      rewrite Hsc, Hst. simpl. rewrite compound_of_sentences_nonblank.
      assert (Hr : exists out,
                 mapM (fun sent =>
                         (sc0 <- polarity_scores E sent ;;
                          Ok (sc_compound sc0))%py)
                   (filter nonblank sentences) = Ok out).
      { apply mapM_returns. eapply Forall_impl; [|exact Hall].
        intros sent [sc' Hsent]. exists (sc_compound sc').
        rewrite Hsent. reflexivity. }
      destruct Hr as [out Hout]. rewrite Hout. simpl.
      eexists. reflexivity.
  - unfold analyze_sentiment. intros s H.
    destruct (polarity_scores E (body_text self)) as [sc|] eqn:Hsc;
      [|discriminate].
    destruct (sent_tokenize E (body_text self)) as [sentences|] eqn:Hst;
      [|discriminate].
    simpl in H. rewrite compound_of_sentences_nonblank in H.
    destruct (mapM _ (filter nonblank sentences)) as [compounds|] eqn:Hc;
      [|discriminate].
    simpl in H. injection H as <-.
    exists sc, sentences, compounds.
    split; [reflexivity|]. split; [reflexivity|].
    apply mapM_Forall2 in Hc.
    split.
    { clear - Hc. induction Hc as [|sent c l l' H Hrest IH]; constructor;
        [|exact IH].
      destruct (polarity_scores E sent) as [sc'|]; [|discriminate].
      simpl in H. injection H as <-. exists sc'. split; reflexivity. }
    cbn [s_compound s_positive s_negative s_neutral s_classification
         s_sentence_sentiments].
    split; [reflexivity|]. split; [reflexivity|].
    split; [reflexivity|]. split; [reflexivity|].
    unfold _classify_sentiment.
    split; [|split; [|split; [|split]]].
    + intros Hp. apply Qle_bool_iff in Hp. rewrite Hp. reflexivity.
    + intros Hn.
      destruct (Qle_bool (5 # 100) (sc_compound sc)) eqn:Hp.
      * apply Qle_bool_iff in Hp.
        assert (Habs : (5 # 100 <= - (5 # 100))%Q)
          by (eapply Qle_trans; eassumption).
        vm_compute in Habs. exfalso. apply Habs. reflexivity.
      * apply Qle_bool_iff in Hn. rewrite Hn. reflexivity.
    + intros Hlo Hhi.
      destruct (Qle_bool (5 # 100) (sc_compound sc)) eqn:Hp.
      * apply Qle_bool_iff in Hp. exfalso. exact (Qlt_not_le _ _ Hhi Hp).
      * destruct (Qle_bool (sc_compound sc) (- (5 # 100))) eqn:Hn;
          [|reflexivity].
        apply Qle_bool_iff in Hn. exfalso. exact (Qlt_not_le _ _ Hlo Hn).
    + intros Hne.
      destruct compounds as [|c cs]; [contradiction Hne; reflexivity|].
      reflexivity.
    + intros ->. reflexivity.
  - intros e He. unfold analyze_sentiment. rewrite He. reflexivity.
  - intros sc e Hsc He. unfold analyze_sentiment. rewrite Hsc, He.
    reflexivity.
  - intros sc before sent after e Hsc Hst Hall Hnb He.
    unfold analyze_sentiment. rewrite Hsc, Hst. simpl.
    rewrite compound_of_sentences_nonblank, filter_app, mapM_app.
    assert (Hr : exists out,
               mapM (fun sent' =>
                       (sc0 <- polarity_scores E sent' ;;
                        Ok (sc_compound sc0))%py)
                 (filter nonblank before) = Ok out).
    { apply mapM_returns. eapply Forall_impl; [|exact Hall].
      intros sent' [sc' Hsent]. exists (sc_compound sc').
      rewrite Hsent. reflexivity. }
    destruct Hr as [out Hout]. rewrite Hout. simpl.
    rewrite Hnb. simpl. rewrite He. reflexivity.
Qed.

End Sentences.

Lemma analyze_sentiment_record_witness :
  exists s,
    analyze_sentiment Sample.libraries Sample.cat_document = Ok s /\
    s_classification s = Sentiment.neutral /\
    ss_mean (s_sentence_sentiments s) = Sample.mean [0%Q; 0%Q].
Proof.
  destruct (analyze_sentiment_record Sample.libraries Sample.cat_document)
    as (Hiff & Hrec & _).
  destruct (proj2 Hiff) as [s Hs].
  { exists {| sc_compound := 0; sc_pos := 0; sc_neg := 0; sc_neu := 1 |},
      [lit "The cat sat."; lit "The cat ran fast."].
    split; [reflexivity|]. split; [vm_compute; reflexivity|].
    repeat constructor; eexists; reflexivity. }
  exists s. split; [exact Hs|].
  destruct (Hrec s Hs)
    as (sc & sentences & compounds & Hsc & Hst & Hc & _ & _ & _ & _
        & _ & _ & Hneutral & Hagg & _).
  injection Hsc as <-.
  split; [apply Hneutral; vm_compute; reflexivity|].
  assert (Hsent : sentences = [lit "The cat sat."; lit "The cat ran fast."]).
  { vm_compute in Hst. injection Hst as <-. vm_compute. reflexivity. }
  subst sentences.
  inversion Hc as [|s1 c1 l1 r1 (sc1 & H1 & E1) Hc' Ea Eb]. subst.
  inversion Hc' as [|s2 c2 l2 r2 (sc2 & H2 & E2) Hc'' Ea Eb]. subst.
  inversion Hc''. subst.
  injection H1 as <-. injection H2 as <-.
  rewrite Hagg by discriminate. reflexivity.
Defined.

(** ** More on the frequencies *)

Lemma list_sum_perm (l l' : list nat) :
  Permutation l l' -> list_sum l = list_sum l'.
Proof.
  induction 1; simpl; lia.
Qed.

Lemma list_sum_firstn (n : nat) (l : list nat) :
  list_sum (firstn n l) <= list_sum l.
Proof.
  revert n. induction l as [|a l IH]; intros [|n]; simpl; try lia.
  specialize (IH n). lia.
Qed.

Lemma qsum_counts (p : positive) (l : counter) :
  (qsum (map (fun wc : str * nat => Z.of_nat (snd wc) # p) l)
   == Z.of_nat (list_sum (map snd l)) # p)%Q.
Proof.
  induction l as [|[w c] l IH]; simpl.
  - reflexivity.
  - rewrite IH. unfold Qeq, Qplus. simpl. nia.
Qed.

Lemma most_common_total (n : nat) (tokens : list str) :
  list_sum (map snd (most_common n (Counter tokens))) <= List.length tokens.
Proof.
  unfold most_common. rewrite <- firstn_map.
  etransitivity; [apply list_sum_firstn|].
  rewrite (list_sum_perm _ _
             (Permutation_map snd (sorted_desc_perm (Counter tokens)))).
  fold (total (Counter tokens)). rewrite total_Counter. reflexivity.
Qed.

Lemma most_common_NoDup (n : nat) (tokens : list str) :
  NoDup (map fst (most_common n (Counter tokens))).
Proof.
  assert (H : NoDup (map fst (sorted_desc (Counter tokens)))).
  { apply (Permutation_NoDup (l := keys (Counter tokens))).
    - symmetry. apply Permutation_map. apply sorted_desc_perm.
    - apply keys_Counter_NoDup. }
  rewrite <- (firstn_skipn n (sorted_desc (Counter tokens))), map_app in H.
  apply NoDup_app_remove_r in H. exact H.
Qed.

(** X10. In [top_words] no word comes twice, and the frequencies add up to
    1 at most; they add up to 1 when the tokens, not empty, have 50
    distinct words or fewer. *)
Theorem top_words_frequencies (tokens : list str)
  (top_words : list word_entry) (word_frequencies : counter) :
  build_bag_of_words tokens = Ok (top_words, word_frequencies) ->
  NoDup (map word top_words) /\
  (qsum (map frequency top_words) <= 1)%Q /\
  (tokens <> [] -> List.length word_frequencies <= 50 ->
   (qsum (map frequency top_words) == 1)%Q).
Proof.
  rewrite build_bag_of_words_eq. intros H. injection H as <- <-.
  rewrite !map_map. unfold entry_of. cbn [word frequency].
  split; [apply most_common_NoDup|].
  pose proof (most_common_total 50 tokens) as Hle.
  split.
  - rewrite qsum_counts. unfold Qle. cbn [Qnum Qden].
    destruct (List.length tokens) as [|n] eqn:Hn.
    + simpl. lia.
    + assert (Hp : Zpos (Pos.of_nat (S n)) = Z.of_nat (S n))
        by (rewrite <- positive_nat_Z, Nat2Pos.id by discriminate;
            reflexivity).
      rewrite Hp. lia.
  - intros Hne Hfew. rewrite qsum_counts.
    assert (Hall : most_common 50 (Counter tokens)
                   = sorted_desc (Counter tokens)).
    { unfold most_common. apply firstn_all2.
      rewrite (Permutation_length (sorted_desc_perm _)). exact Hfew. }
    rewrite Hall.
    rewrite (list_sum_perm _ _
               (Permutation_map snd (sorted_desc_perm (Counter tokens)))).
    fold (total (Counter tokens)). rewrite total_Counter.
    destruct (List.length tokens) as [|n] eqn:Hn.
    + destruct tokens; [contradiction Hne; reflexivity|discriminate].
    + unfold Qeq. cbn [Qnum Qden].
      assert (Hp : Zpos (Pos.of_nat (S n)) = Z.of_nat (S n))
        by (rewrite <- positive_nat_Z, Nat2Pos.id by discriminate;
            reflexivity).
      rewrite Hp. lia.
Qed.

Lemma top_words_frequencies_witness :
  exists top_words word_frequencies,
    build_bag_of_words [lit "cat"; lit "ran"; lit "cat"]
    = Ok (top_words, word_frequencies) /\
    (qsum (map frequency top_words) == 1)%Q.
Proof.
  assert (H : exists top_words word_frequencies,
            build_bag_of_words [lit "cat"; lit "ran"; lit "cat"]
            = Ok (top_words, word_frequencies) /\
            List.length word_frequencies <= 50).
  { eexists. eexists. split; [vm_compute; reflexivity|]. simpl. lia. }
  destruct H as (top_words & word_frequencies & H & Hfew).
  exists top_words, word_frequencies. split; [exact H|].
  apply (top_words_frequencies _ _ _ H); [discriminate|exact Hfew].
Defined.

(** ** More on the style record *)

Lemma round_nearest_exact (up : bool) (z : Z) (d : positive) :
  round_nearest up ((z * Zpos d) # d) = z.
Proof.
  unfold round_nearest. cbn [Qnum Qden].
  rewrite Z.mod_mul, Z.div_mul by lia. reflexivity.
Qed.

Lemma round4_one (E : externals) (n : nat) :
  0 < n -> (round E (ratio n n) 4 == 1)%Q.
Proof.
  intros H. unfold ratio. destruct n as [|n]; [lia|].
  assert (Hp : Z.of_nat (S n) = Zpos (Pos.of_nat (S n)))
    by (rewrite <- positive_nat_Z, Nat2Pos.id by discriminate; reflexivity).
  rewrite Hp. generalize (Pos.of_nat (S n)). intros d.
  unfold round. change (Pos.pow 10 (Pos.of_nat 4)) with 10000%positive.
  generalize (round_tie_up E ((Zpos d # d) * inject_Z 10000)). intros up.
  unfold Qmult, inject_Z. cbn [Qnum Qden].
  replace (Zpos d * 10000)%Z with (10000 * Zpos (d * 1))%Z by lia.
  rewrite round_nearest_exact. reflexivity.
Qed.

Lemma distinct_NoDup (l : list str) : NoDup l -> distinct l = List.length l.
Proof.
  intros H. unfold distinct. rewrite (nodup_fixed_point str_eq_dec H).
  reflexivity.
Qed.

Lemma distinct_zero (l : list str) : distinct l = 0 -> l = [].
Proof.
  unfold distinct. destruct l as [|a l]; [reflexivity|].
  intros H. apply length_zero_iff_nil in H.
  assert (Hin : In a (nodup str_eq_dec (a :: l)))
    by (apply nodup_In; left; reflexivity).
  rewrite H in Hin. contradiction.
Qed.

Section StyleCounts.

Variable E : externals.
Variable self : ProjectGutenbergText.

(** X11. Once the two tokenizers have returned, [analyze_style] returns
    for every token sequence, the empty one included, and never divides by
    zero. The counts it reports agree: [total_words] is the number of
    tokens given, no count of distinct words exceeds its total, the
    alphabetic tokens are no more than the tokens of the body, and
    [unique_words] is 0 only for no token. When no token is repeated the
    type-token ratio is 1, and without a sentence the average sentence
    length is 0. *)
Theorem analyze_style_counts (tokens all_tokens sentences : list str) :
  word_tokenize E (lower E (body_text self)) = Ok all_tokens ->
  sent_tokenize E (body_text self) = Ok sentences ->
  exists s,
    analyze_style E self tokens = Ok s /\
    total_words s = List.length tokens /\
    unique_words s <= total_words s /\
    (unique_words s = 0 <-> tokens = []) /\
    total_words_all s <= List.length all_tokens /\
    unique_words_all s <= total_words_all s /\
    total_sentences s = List.length sentences /\
    (NoDup tokens -> tokens <> [] -> (type_token_ratio s == 1)%Q) /\
    (sentences = [] -> (avg_sentence_length s == 0)%Q) /\
    avg_sentence_length s
    = round E (ratio (total_words_all s) (total_sentences s)) 2.
Proof.
  intros Hw Hs. unfold analyze_style. rewrite Hw, Hs. simpl rbind.
  rewrite !ratio_or_zero_ratio. simpl rbind.
  set (all_words := filter (isalpha E) all_tokens).
  assert (Havg :
            match sentences with
            | [] => Ok 0%Q
            | _ :: _ => truediv (List.length all_words) (List.length sentences)
            end = Ok (ratio (List.length all_words) (List.length sentences))).
  { destruct sentences; reflexivity. }
  rewrite Havg. simpl rbind.
  eexists. split; [reflexivity|]. cbn.
  split; [reflexivity|].
  split; [apply distinct_le_length|].
  split.
  { split; [apply distinct_zero|intros ->; reflexivity]. }
  split; [apply filter_length_le|].
  split; [apply distinct_le_length|].
  split; [reflexivity|].
  split.
  { intros Hnd Hne. rewrite (distinct_NoDup _ Hnd).
    apply round4_one. destruct tokens; [contradiction Hne; reflexivity|].
    simpl. lia. }
  split; [|reflexivity].
  intros ->. reflexivity.
Qed.

End StyleCounts.

Lemma analyze_style_counts_witness :
  exists s,
    analyze_style Sample.libraries Sample.cat_document
      [lit "cat"; lit "ran"] = Ok s /\
    (type_token_ratio s == 1)%Q.
Proof.
  destruct (analyze_style_counts Sample.libraries Sample.cat_document
              [lit "cat"; lit "ran"]
              [lit "the"; lit "cat"; lit "sat."; lit "the"; lit "cat";
               lit "ran"; lit "fast."]
              [lit "The cat sat."; lit "The cat ran fast."]
              eq_refl eq_refl)
    as (s & Hs & _ & _ & _ & _ & _ & _ & Hone & _).
  exists s. split; [exact Hs|].
  apply Hone; [|discriminate].
  repeat constructor; simpl; intuition discriminate.
Defined.

(** ** More on the topics *)

Lemma map_nth_seq_all {A} (d : A) (l : list A) :
  map (fun i => nth i l d) (seq 0 (List.length l)) = l.
Proof.
  apply (nth_ext _ _ d d).
  - rewrite length_map, length_seq. reflexivity.
  - intros n Hn. rewrite length_map, length_seq in Hn.
    rewrite (nth_indep _ d (nth 0 l d))
      by (rewrite length_map, length_seq; exact Hn).
    rewrite (map_nth (fun i => nth i l d) (seq 0 (List.length l)) 0 n).
    rewrite seq_nth by exact Hn. reflexivity.
Qed.

Section AllWords.

Variable E : externals.
Variable names : list str.
Hypothesis names_not_empty : 0 < List.length names.

Lemma topic_record_all (topic_idx : nat) (topic : list Q) :
  argsort_ascending E topic ->
  List.length topic = List.length names ->
  topic_record E names 0 topic_idx topic
  = Ok (topic_of E names (List.length names) topic_idx topic).
Proof.
  intros Ha Hlen. unfold topic_record, topic_of.
  assert (Hall : rev (slice_from (argsort E topic) (- 0))
                 = top_indices E (List.length names) topic).
  { rewrite slice_from_minus_zero. unfold top_indices.
    symmetry. apply firstn_all2.
    rewrite length_rev, (Permutation_length (proj1 Ha)), length_seq. lia. }
  rewrite Hall.
  pose proof (top_indices_length E (List.length names) topic Ha) as Hl.
  assert (Hin : Forall (fun i => i < List.length names)
                  (top_indices E (List.length names) topic)).
  { apply Forall_forall. intros i Hi. rewrite <- Hlen.
    exact (top_indices_in E _ _ _ Ha Hi). }
  rewrite (mapM_index ([] : str) names _ Hin). simpl rbind.
  destruct (top_indices E (List.length names) topic) as [|i0 rest] eqn:Ht.
  - simpl in Hl. lia.
  - simpl. inversion Hin as [|? ? Hi0 _]; subst.
    unfold index. rewrite <- Hlen in Hi0.
    rewrite (nth_error_nth' topic 0%Q Hi0). reflexivity.
Qed.

Lemma topic_records_all (components : list (list Q)) (topic_idx : nat) :
  Forall (fun topic => argsort_ascending E topic /\
                       List.length topic = List.length names) components ->
  topic_records E names 0 topic_idx components
  = Ok (map (fun p => topic_of E names (List.length names) (fst p) (snd p))
          (combine (seq topic_idx (List.length components)) components)).
Proof.
  intros H. revert topic_idx.
  induction H as [|t rest [Ha Hl] Hrest IH]; intros topic_idx; simpl;
    [reflexivity|].
  rewrite (topic_record_all _ _ Ha Hl), IH. reflexivity.
Qed.

Lemma top_indices_all_words (topic : list Q) :
  argsort_ascending E topic ->
  List.length topic = List.length names ->
  Permutation
    (map (fun i => nth i names []) (top_indices E (List.length names) topic))
    names.
Proof.
  intros [Hp _] Hlen. unfold top_indices.
  rewrite firstn_all2
    by (rewrite length_rev, (Permutation_length Hp), length_seq; lia).
  apply (Permutation_trans
           (l' := map (fun i => nth i names []) (seq 0 (List.length names)))).
  - apply Permutation_map. rewrite <- Hlen, <- Hp.
    symmetry. apply Permutation_rev.
  - rewrite (map_nth_seq_all ([] : str) names). reflexivity.
Qed.

End AllWords.

Section ZeroWords.

Variable E : externals.
Variable self : ProjectGutenbergText.

(** X12. Asked for 0 words per topic, [extract_topics] lists them all:
    under the conditions in which it returns a record per topic, each
    record's words are the whole vocabulary, by descending weight, and its
    weight is still the highest of the topic. *)
Theorem extract_topics_zero_words (n_topics : Z)
  (sentences : list str) (v : vectorized) (components : list (list Q)) :
  sent_tokenize E (body_text self) = Ok sentences ->
  (n_topics <= len sentences)%Z ->
  fit_transform E sentences = Ok v ->
  lda_components E n_topics v = Ok components ->
  0 < List.length (feature_names v) ->
  Forall (fun topic => argsort_ascending E topic /\
                       List.length topic = List.length (feature_names v))
    components ->
  exists topics,
    extract_topics E self n_topics 0
    = ([CallFitTransform sentences; CallLdaFit n_topics], Ok topics) /\
    List.length topics = List.length components /\
    forall k topic,
      nth_error components k = Some topic ->
      exists r,
        nth_error topics k = Some r /\
        Permutation (words r) (feature_names v) /\
        words r
        = map (fun i => nth i (feature_names v) []) (rev (argsort E topic)) /\
        StronglySorted (fun i j => (nth j topic 0 <= nth i topic 0)%Q)
          (rev (argsort E topic)) /\
        forall j, j < List.length topic -> (nth j topic 0 <= weight r)%Q.
Proof.
  intros Hs Hn Hv Hc Hvoc Hrows.
  set (names := feature_names v).
  exists (map (fun p => topic_of E names (List.length names) (fst p) (snd p))
            (combine (seq 0 (List.length components)) components)).
  split.
  { pose proof (topic_records_all E names Hvoc components 0 Hrows) as Hrec.
    unfold extract_topics, bind, lift, emit, try_except.
    apply Z.ltb_ge in Hn. rewrite Hs, Hn, Hv. cbv beta iota.
    rewrite Hc. cbv beta iota. fold names. rewrite Hrec. reflexivity. }
  split.
  { rewrite length_map, length_combine, length_seq. lia. }
  intros k topic Hk.
  assert (Hrow : argsort_ascending E topic /\
                 List.length topic = List.length names).
  { rewrite Forall_forall in Hrows. apply Hrows.
    exact (nth_error_In _ _ Hk). }
  destruct Hrow as [Ha Hl].
  assert (Hall : top_indices E (List.length names) topic
                 = rev (argsort E topic)).
  { unfold top_indices. apply firstn_all2.
    rewrite length_rev, (Permutation_length (proj1 Ha)), length_seq. lia. }
  exists (topic_of E names (List.length names) k topic).
  split.
  { rewrite nth_error_map, (nth_error_combine_seq components 0 k topic Hk).
    reflexivity. }
  split; [exact (top_indices_all_words E names Hvoc topic Ha Hl)|].
  split; [simpl; rewrite Hall; reflexivity|].
  split; [apply StronglySorted_rev; exact (proj2 Ha)|].
  intros j Hj. simpl.
  apply (top_indices_head E (List.length names) topic j Ha); [lia|exact Hj].
Qed.

End ZeroWords.

Lemma extract_topics_zero_words_witness :
  exists topics,
    extract_topics Sample.libraries Sample.cat_document 2 0
    = ([CallFitTransform [lit "The cat sat."; lit "The cat ran fast."];
        CallLdaFit 2], Ok topics) /\
    List.length topics = 2.
Proof.
  assert (Hrows : Forall
            (fun topic => argsort_ascending Sample.libraries topic /\
                          List.length topic
                          = List.length (feature_names
                              {| feature_names := Sample.vocabulary;
                                 doc_term_matrix := [[1; 1; 1]; [1; 1; 1]] |}))
            [[1 # 2; 5 # 2; 3 # 2]; [1 # 2; 5 # 2; 3 # 2]]%Q).
  { constructor; [split; [apply sample_topic_argsort|reflexivity]|].
    constructor; [split; [apply sample_topic_argsort|reflexivity]|].
    constructor. }
  assert (Hn : (2 <= len [lit "The cat sat."; lit "The cat ran fast."])%Z)
    by (vm_compute; discriminate).
  assert (Hvoc : 0 < List.length
                       (feature_names
                          {| feature_names := Sample.vocabulary;
                             doc_term_matrix := [[1; 1; 1]; [1; 1; 1]] |}))
    by (simpl; lia).
  destruct (extract_topics_zero_words Sample.libraries Sample.cat_document 2
              [lit "The cat sat."; lit "The cat ran fast."]
              {| feature_names := Sample.vocabulary;
                 doc_term_matrix := [[1; 1; 1]; [1; 1; 1]] |}
              [[1 # 2; 5 # 2; 3 # 2]; [1 # 2; 5 # 2; 3 # 2]]%Q
              eq_refl Hn eq_refl eq_refl Hvoc Hrows)
    as (topics & Heq & Hlen & _).
  exists topics. split; [exact Heq|exact Hlen].
Defined.

(** ** The whole analysis of a document *)


Section Analyze.

Variable E : externals.
Variable self : ProjectGutenbergText.





End Analyze.


(** ** The corpus *)

Section CorpusProperties.

Variable analyzers : result externals.
Variable dump : str -> corpus_results -> result unit.
Variable output_file : str.

Lemma analyze_files_app (files1 files2 : list text_file) :
  analyze_files analyzers (files1 ++ files2) =
  (fst (analyze_files analyzers files1)
   ++ fst (analyze_files analyzers files2),
   snd (analyze_files analyzers files1)
   ++ snd (analyze_files analyzers files2)).
Proof.
  induction files1 as [|f files1 IH]; simpl.
  - destruct (analyze_files analyzers files2). reflexivity.
  - rewrite IH.
    destruct (analyze_file analyzers f) as [t [a|e]];
      destruct (analyze_files analyzers files1) as [t1 a1];
      destruct (analyze_files analyzers files2) as [t2 a2]; simpl;
      rewrite <- ?app_assoc; reflexivity.
Qed.

Lemma analyze_files_no_dump (files : list text_file) :
  filter is_dump (fst (analyze_files analyzers files)) = [].
Proof.
  assert (Hev : forall t : list event, filter is_dump (map Ev t) = []).
  { induction t as [|e t IH]; simpl; [reflexivity|exact IH]. }
  induction files as [|f files IH]; simpl; [reflexivity|].
  destruct (analyze_file analyzers f) as [t [a|e]];
    destruct (analyze_files analyzers files) as [t' a']; simpl in *;
    rewrite filter_app, Hev; simpl; exact IH.
Qed.

Lemma analyze_files_returned (files : list text_file) :
  Forall2 (fun f a => snd (analyze_file analyzers f) = Ok a)
    (filter (returned analyzers) files)
    (snd (analyze_files analyzers files)).
Proof.
  induction files as [|f files IH]; simpl; [constructor|].
  unfold returned at 1.
  destruct (analyze_file analyzers f) as [t [a|e]] eqn:Hf;
    destruct (analyze_files analyzers files) as [t' a']; simpl in *.
  - constructor; [rewrite Hf; reflexivity|exact IH].
  - exact IH.
Qed.

(** X14. A failing document does not touch the others. Where the analysis
    of a file raises, whether the file cannot be read or an analyzer
    fails, the loop keeps what the document printed, prints one error
    line with the path and the message, and goes on: the analyses kept are
    those of the files before followed by those of the files after. *)
Theorem analyze_files_failure (files_before files_after : list text_file)
  (f : text_file) (e : exn) :
  snd (analyze_file analyzers f) = Raise e ->
  analyze_files analyzers (files_before ++ f :: files_after) =
  (fst (analyze_files analyzers files_before)
   ++ map Ev (fst (analyze_file analyzers f))
   ++ Ev (Printed (error_line f e))
   :: fst (analyze_files analyzers files_after),
   snd (analyze_files analyzers files_before)
   ++ snd (analyze_files analyzers files_after)) /\
  (forall e', f_read f = Raise e' ->
     e = e' /\ fst (analyze_file analyzers f) = []).
Proof.
  intros H. split.
  - rewrite analyze_files_app. simpl.
    destruct (analyze_file analyzers f) as [t r]. simpl in H. subst r.
    destruct (analyze_files analyzers files_after) as [t' a']. simpl.
    reflexivity.
  - intros e' Hr. unfold analyze_file, bind, lift in *. rewrite Hr in *.
    simpl in H. injection H as <-. split; reflexivity.
Qed.

Lemma corpus_found (f : text_file) (files : list text_file) :
  analyze_corpus analyzers dump output_file (f :: files) =
  let found :=
    Ev (Printed (lit "Found " ++ str_of_nat (List.length (f :: files))
                 ++ lit " texts to analyze" ++ [nl])) in
  let t := fst (analyze_files analyzers (f :: files)) in
  let results := report analyzers (f :: files) in
  match dump output_file results with
  | Raise e => (found :: t ++ [Dump output_file results], Raise e)
  | Ok _ =>
      (found :: t
       ++ [Dump output_file results;
           Ev (Printed ([nl; 226%N; 339%N; 8220%N]
                        ++ lit " Analysis complete! Results saved to "
                        ++ output_file));
           Ev (Printed (lit "  Analyzed "
                        ++ str_of_nat (List.length (texts results))
                        ++ lit " texts"))],
       Ok (Some results))
  end.
Proof.
  unfold analyze_corpus, report.
  destruct (analyze_files analyzers (f :: files)) as [t a]. reflexivity.
Qed.

(** X15. The report of a run. With a file or more and a dump that
    returns, [analyze_corpus] returns the report whatever happens to the
    documents: [total_texts] is the number of files found, [texts] holds,
    in the order of the files, the analyses of those whose analysis
    returned, so there are as many as files exactly when none failed, and
    the last line printed gives the number of analyses, not of files. *)
Theorem analyze_corpus_report (files : list text_file) :
  files <> [] ->
  (exists u, dump output_file (report analyzers files) = Ok u) ->
  exists trace results,
    analyze_corpus analyzers dump output_file files
    = (trace, Ok (Some results)) /\
    total_texts results = List.length files /\
    analysis_date results = None /\
    Forall2 (fun f a => snd (analyze_file analyzers f) = Ok a)
      (filter (returned analyzers) files) (texts results) /\
    List.length (texts results) <= total_texts results /\
    (List.length (texts results) = total_texts results <->
     forallb (returned analyzers) files = true) /\
    In (Dump output_file results) trace /\
    last trace (Dump output_file results)
    = Ev (Printed (lit "  Analyzed "
                   ++ str_of_nat (List.length (texts results))
                   ++ lit " texts")).
Proof.
  intros Hne [u Hd]. destruct files as [|f files]; [contradiction Hne;
    reflexivity|].
  rewrite corpus_found. cbv zeta. rewrite Hd.
  eexists. eexists. split; [reflexivity|].
  split; [reflexivity|]. split; [reflexivity|].
  pose proof (analyze_files_returned (f :: files)) as Hret.
  split; [exact Hret|].
  assert (Hlen : List.length (texts (report analyzers (f :: files)))
                 = List.length (filter (returned analyzers) (f :: files))).
  { symmetry. exact (Forall2_length Hret). }
  split.
  { rewrite Hlen. apply filter_length_le. }
  split.
  { rewrite Hlen. cbn [total_texts report].
    generalize (f :: files). intros l. split.
    - intros H. apply forallb_forall. intros x Hx.
      apply (filter_length_forallb (returned analyzers) l) in H.
      rewrite forallb_forall in H. exact (H x Hx).
    - intros H. rewrite forallb_filter_id by exact H. reflexivity. }
  split.
  { right. apply in_or_app. right. left. reflexivity. }
  match goal with
  | |- last (?x :: ?t ++ [?a; ?b; ?c]) _ = _ =>
      change (x :: t ++ [a; b; c]) with ((x :: t) ++ [a; b] ++ [c])
  end.
  rewrite app_assoc. apply last_last.
Qed.

End CorpusProperties.

Lemma analyze_files_failure_witness :
  snd (analyze_files (Ok Sample.libraries)
         [SampleCorpus.good; SampleCorpus.unreadable; SampleCorpus.good])
  = snd (analyze_files (Ok Sample.libraries) [SampleCorpus.good])
    ++ snd (analyze_files (Ok Sample.libraries) [SampleCorpus.good]).
Proof.
  destruct (analyze_files_failure (Ok Sample.libraries)
              [SampleCorpus.good] [SampleCorpus.good] SampleCorpus.unreadable
              (Exception (lit "invalid start byte")) eq_refl) as [H _].
  change [SampleCorpus.good; SampleCorpus.unreadable; SampleCorpus.good]
    with ([SampleCorpus.good] ++ SampleCorpus.unreadable
          :: [SampleCorpus.good]).
  rewrite H. reflexivity.
Defined.

Lemma analyze_corpus_report_witness :
  exists trace results,
    analyze_corpus (Ok Sample.libraries) SampleCorpus.saves SampleCorpus.out
      [SampleCorpus.good; SampleCorpus.unreadable]
    = (trace, Ok (Some results)) /\
    total_texts results = 2 /\
    List.length (texts results) <= total_texts results.
Proof.
  destruct (analyze_corpus_report (Ok Sample.libraries) SampleCorpus.saves
              SampleCorpus.out [SampleCorpus.good; SampleCorpus.unreadable])
    as (trace & results & H & Ht & _ & _ & Hle & _).
  - discriminate.
  - exists tt. reflexivity.
  - exists trace, results. split; [exact H|]. split; [exact Ht|exact Hle].
Defined.

Section CorpusDump.

Variable analyzers : result externals.
Variable dump : str -> corpus_results -> result unit.
Variable output_file : str.

(** X16. The report is handed to [json.dump] once when there is a file
    and never when there is none, in which case the function returns
    [None]. No document can make [analyze_corpus] raise: it raises exactly
    when the dump raises, with the exception of the dump, after every
    document has been gone through and without the two closing lines. *)
Theorem analyze_corpus_dump (files : list text_file) :
  (snd (analyze_corpus analyzers dump output_file files) = Ok None <->
   files = []) /\
  (files = [] ->
   filter is_dump (fst (analyze_corpus analyzers dump output_file files))
   = []) /\
  (files <> [] ->
   filter is_dump (fst (analyze_corpus analyzers dump output_file files))
   = [Dump output_file (report analyzers files)]) /\
  (forall e,
     snd (analyze_corpus analyzers dump output_file files) = Raise e <->
     files <> [] /\ dump output_file (report analyzers files) = Raise e) /\
  (forall e,
     files <> [] ->
     dump output_file (report analyzers files) = Raise e ->
     fst (analyze_corpus analyzers dump output_file files)
     = Ev (Printed (lit "Found " ++ str_of_nat (List.length files)
                    ++ lit " texts to analyze" ++ [nl]))
       :: fst (analyze_files analyzers files)
       ++ [Dump output_file (report analyzers files)]).
Proof.
  destruct files as [|f files].
  - simpl. split; [split; reflexivity|].
    split; [reflexivity|].
    split; [intros H; contradiction H; reflexivity|].
    split.
    + intros e. split; [discriminate|].
      intros [H _]. contradiction H. reflexivity.
    + intros e H. contradiction H. reflexivity.
  - rewrite corpus_found. cbv zeta.
    pose proof (analyze_files_no_dump analyzers (f :: files)) as Hnd.
    destruct (dump output_file (report analyzers (f :: files))) as [u|e0]
      eqn:Hd; cbn [fst snd].
    + split; [split; discriminate|].
      split; [discriminate|].
      split.
      { intros _. cbn [filter is_dump]. rewrite filter_app, Hnd.
        reflexivity. }
      split; [|discriminate].
      intros e. split; [discriminate|]. intros [_ H]. discriminate.
    + split; [split; discriminate|].
      split; [discriminate|].
      split.
      { intros _. cbn [filter is_dump]. rewrite filter_app, Hnd.
        reflexivity. }
      split.
      { intros e. split.
        - intros H. injection H as <-. split; [discriminate|reflexivity].
        - intros [_ H]. injection H as <-. reflexivity. }
      intros e _ _. reflexivity.
Qed.

End CorpusDump.

Lemma analyze_corpus_dump_witness :
  snd (analyze_corpus (Ok Sample.libraries) SampleCorpus.read_only
         SampleCorpus.out [SampleCorpus.good; SampleCorpus.unreadable])
  = Raise (Exception (lit "Permission denied")).
Proof.
  destruct (analyze_corpus_dump (Ok Sample.libraries) SampleCorpus.read_only
              SampleCorpus.out [SampleCorpus.good; SampleCorpus.unreadable])
    as (_ & _ & _ & H & _).
  apply H. split; [discriminate|reflexivity].
Defined.

Section CorpusMalformed.

Variable E : externals.
Variable empty_scores : scores.

(** X17. A file without markers is no failure for the corpus. When the
    file reads, the analyzers are built and the libraries take the empty
    text as they do (no token, no sentence, a score), its analysis returns
    after printing the one progress line, and the report gets a record for
    it, with the file's stem as id and neither words nor topics. *)
Theorem file_without_markers_is_reported
  (f : text_file) (content : str) (rest : list text_file) :
  f_read f = Ok content ->
  find content start_marker = (-1)%Z \/ find content end_marker = (-1)%Z ->
  lower E [] = [] ->
  word_tokenize E [] = Ok [] ->
  sent_tokenize E [] = Ok [] ->
  polarity_scores E [] = Ok empty_scores ->
  exists a,
    analyze_file (Ok E) f
    = ([Printed (lit "Analyzing " ++ f_stem f ++ lit ": "
                 ++ title_shown (__init__ (f_stem f) content))], Ok a) /\
    a_id a = f_stem f /\
    a_top_words a = [] /\
    a_word_frequencies a = [] /\
    a_topics a = [] /\
    returned (Ok E) f = true /\
    snd (analyze_files (Ok E) (f :: rest))
    = a :: snd (analyze_files (Ok E) rest).
Proof.
  intros Hr Hm Hl Hw Hs Hp.
  pose proof (init_without_markers (f_stem f) content Hm) as Hb.
  set (self := __init__ (f_stem f) content) in *.
  assert (Ha : exists a,
            analyze E self
            = ([Printed (lit "Analyzing " ++ f_stem f ++ lit ": "
                         ++ title_shown self)], Ok a) /\
            a_id a = f_stem f /\ a_top_words a = [] /\
            a_word_frequencies a = [] /\ a_topics a = []).
  { eexists. split.
    - unfold analyze, bind, lift, emit, ret.
      rewrite (preprocess_empty E self Hl Hw Hb). cbv beta iota.
      change (build_bag_of_words [])
        with (Ok (@nil word_entry, @nil (str * nat))).
      cbv beta iota.
      rewrite (analyze_sentiment_empty E self Hs empty_scores Hp Hb),
        (analyze_style_empty E self Hl Hw Hs Hb),
        (extract_topics_empty E self Hs Hb).
      reflexivity.
    - repeat split; reflexivity. }
  destruct Ha as (a & Ha & Hid & Htop & Hfreq & Htopics).
  assert (Hfile : analyze_file (Ok E) f
                  = ([Printed (lit "Analyzing " ++ f_stem f ++ lit ": "
                               ++ title_shown self)], Ok a)).
  { unfold analyze_file, bind, lift. rewrite Hr. cbv beta iota.
    fold self. rewrite Ha. reflexivity. }
  exists a. split; [exact Hfile|].
  split; [exact Hid|]. split; [exact Htop|]. split; [exact Hfreq|].
  split; [exact Htopics|].
  split; [unfold returned; rewrite Hfile; reflexivity|].
  simpl. rewrite Hfile.
  destruct (analyze_files (Ok E) rest). reflexivity.
Qed.

End CorpusMalformed.

Lemma file_without_markers_is_reported_witness :
  returned (Ok Sample.libraries)
    {| f_path := lit "pg3.txt"; f_stem := lit "pg3";
       f_read := Ok Sample.cat_text |} = true.
Proof.
  destruct (file_without_markers_is_reported Sample.libraries
              {| sc_compound := 0; sc_pos := 0; sc_neg := 0; sc_neu := 1 |}
              {| f_path := lit "pg3.txt"; f_stem := lit "pg3";
                 f_read := Ok Sample.cat_text |}
              Sample.cat_text [] eq_refl (or_introl eq_refl)
              eq_refl eq_refl eq_refl eq_refl)
    as (a & _ & _ & _ & _ & _ & H & _).
  exact H.
Defined.
